(** * Vync: the analysis pipeline and the status synchronisation client

    A shallow embedding of
    - the edge function that drives one video job through download, upload,
      generation, parsing and persistence (two versions of it are in the
      repository: the one with [updateVideoStatus], and the earlier one that
      reports [rawPreview]), and
    - the effect of [AnalysisView] that merges the realtime subscriptions
      and the poll into one view.

    JavaScript strings are modelled by [string]; one character is one code
    unit (code units above 255 are outside the model).  A number is modelled
    by the text that [String] prints for it, which is all the code of the
    repository asks of a number it has parsed. *)

From Stdlib Require Import ZArith Lia Bool List Ascii String.
From Stdlib Require Import DecimalString.
From stdpp Require Import base option gmap strings.
Import ListNotations.

Set Warnings "-register-all".
Local Open Scope Z_scope.

(* ------------------------------------------------------------------ *)
(** ** JavaScript strings *)

Module JS.

(** White space of [\s] and of [String.prototype.trim], restricted to the
    code units the model has: TAB, LF, VT, FF, CR, SPACE, NBSP. *)
Definition isSpace (c : ascii) : bool :=
  match nat_of_ascii c with
  | 9%nat | 10%nat | 11%nat | 12%nat | 13%nat | 32%nat | 160%nat => true
  | _ => false
  end.

Definition startsWith (p s : string) : bool := String.prefix p s.

Fixpoint drop (n : nat) (s : string) : string :=
  match n, s with
  | O, _ => s
  | S n', String _ s' => drop n' s'
  | S _, EmptyString => EmptyString
  end.

(** [s.indexOf(p)]: the least index at which [p] occurs, or -1. *)
Fixpoint indexOf (p s : string) : Z :=
  if startsWith p s then 0
  else match s with
       | EmptyString => -1
       | String _ s' =>
           let i := indexOf p s' in if i <? 0 then -1 else i + 1
       end.

(** [s.lastIndexOf(p)]: the greatest index at which [p] occurs, or -1. *)
Fixpoint lastIndexOf (p s : string) : Z :=
  match s with
  | EmptyString => if startsWith p s then 0 else -1
  | String _ s' =>
      let i := lastIndexOf p s' in
      if 0 <=? i then i + 1
      else if startsWith p s then 0 else -1
  end.

Definition includes (p s : string) : bool := 0 <=? indexOf p s.

(** [s.slice(a, b)] for [0 <= a] and [0 <= b]. *)
Definition slice (a b : Z) (s : string) : string :=
  String.substring (Z.to_nat a) (Z.to_nat (b - a)) s.

Fixpoint trimStart (s : string) : string :=
  match s with
  | String c s' => if isSpace c then trimStart s' else s
  | EmptyString => EmptyString
  end.

Fixpoint trimEnd (s : string) : string :=
  match s with
  | EmptyString => EmptyString
  | String c s' =>
      match trimEnd s' with
      | EmptyString => if isSpace c then EmptyString else String c EmptyString
      | t => String c t
      end
  end.

Definition trim (s : string) : string := trimEnd (trimStart s).

Definition lowerChar (c : ascii) : ascii :=
  let n := nat_of_ascii c in
  if ((65 <=? n) && (n <=? 90))%nat then ascii_of_nat (n + 32) else c.

(** [s.toLowerCase()] on the letters A-Z; no other code unit of the model
    lower-cases to a letter of "bad request". *)
Fixpoint toLowerCase (s : string) : string :=
  match s with
  | EmptyString => EmptyString
  | String c s' => String (lowerChar c) (toLowerCase s')
  end.

(** *** JSON values, as JSON.parse returns them

    A number is given by the text that [String(n)] prints for it: "0", "5",
    "12.5", "-3", "1e+21". The text determines the number up to the sign
    of zero, and the code never computes with a parsed number: it prints
    it, tests it for truth or stores it as it is. An object has no property
    named toString of its own, so that [String(o)] is "[object Object]". *)

Inductive json : Type :=
| JNull
| JBool (b : bool)
| JNum (printed : string)
| JStr (s : string)
| JArr (items : list json)
| JObj (fields : list (string * json)).

(** A property read [o.k]; [None] is [undefined]. *)
Fixpoint assoc (k : string) (fields : list (string * json)) : option json :=
  match fields with
  | [] => None
  | (k', v) :: rest => if String.eqb k k' then Some v else assoc k rest
  end.

Definition getProp (k : string) (v : json) : option json :=
  match v with
  | JObj fields => assoc k fields
  | _ => None
  end.

(** [k in v] for a value that is an object or an array ([typeof v ===
    "object"], [v] not null) and a key that is neither an index, "length"
    nor a property of a prototype. *)
Definition hasProp (k : string) (v : json) : bool :=
  match v with
  | JObj fields => match assoc k fields with Some _ => true | None => false end
  | _ => false
  end.

Definition isObjectType (v : json) : bool :=
  match v with
  | JObj _ | JArr _ => true
  | _ => false
  end.

Definition truthy (v : json) : bool :=
  match v with
  | JNull => false
  | JBool b => b
  | JNum printed => negb (String.eqb printed "0")
  | JStr s => negb (String.eqb s "")
  | JArr _ | JObj _ => true
  end.

(** [String(n)] for a count [n], an index of an array or the length of a
    string: the decimal digits of [n]. (A count is below 2^53; [String]
    prints the decimal digits of the integers below 1e21.) *)
Definition natToString (n : nat) : string :=
  NilZero.string_of_uint (Nat.to_uint n).

Fixpoint join (sep : string) (l : list string) : string :=
  match l with
  | [] => ""
  | [x] => x
  | x :: rest => x +:+ sep +:+ join sep rest
  end.

(** [String(v)]. An array is its elements joined by ","; null elements
    print as the empty string. *)
Fixpoint toString (v : json) : string :=
  match v with
  | JNull => "null"
  | JBool true => "true"
  | JBool false => "false"
  | JNum printed => printed
  | JStr s => s
  | JArr items =>
      join "," (map (fun e => match e with JNull => "" | _ => toString e end) items)
  | JObj _ => "[object Object]"
  end.

(** No character of [s] is [c]. *)
Fixpoint lacks (c : ascii) (s : string) : bool :=
  match s with
  | EmptyString => true
  | String c' s' => negb (Ascii.eqb c' c) && lacks c s'
  end.

Fixpoint allSpace (s : string) : bool :=
  match s with
  | EmptyString => true
  | String c s' => isSpace c && allSpace s'
  end.

End JS.

(* ------------------------------------------------------------------ *)
(** ** Reading the inference response

    The code between "// Parse JSON" and the end of the try block of the
    edge function; both versions of the function have the same text. *)

Module Parse.
Import JS.

Definition fence : string := "```".

(** The regular expression [/```(?:json)?\s*([\s\S]*?)```/], one function
    per piece, with the backtracking order of the engine: [lazyUntilFence]
    is [([\s\S]*?)```] and returns group 1; [spacesThenGroup] is the greedy
    [\s*] before it, giving back one white space at a time; [langThenGroup]
    is the greedy [(?:json)?]; [matchCodeFence] tries the start indices from
    the left. *)
Fixpoint lazyUntilFence (s : string) : option string :=
  if startsWith fence s then Some EmptyString
  else match s with
       | EmptyString => None
       | String c s' => option_map (String c) (lazyUntilFence s')
       end.

Fixpoint spacesThenGroup (s : string) : option string :=
  match s with
  | String c s' =>
      if isSpace c then
        match spacesThenGroup s' with
        | Some g => Some g
        | None => lazyUntilFence s
        end
      else lazyUntilFence s
  | EmptyString => lazyUntilFence s
  end.

Definition langThenGroup (s : string) : option string :=
  match (if startsWith "json" s then spacesThenGroup (drop 4 s) else None) with
  | Some g => Some g
  | None => spacesThenGroup s
  end.

Fixpoint matchCodeFence (s : string) : option string :=
  match (if startsWith fence s then langThenGroup (drop 3 s) else None) with
  | Some g => Some g
  | None =>
      match s with
      | EmptyString => None
      | String _ s' => matchCodeFence s'
      end
  end.

(** [jsonStr], the text handed to JSON.parse. *)
Definition extractJson (responseText : string) : string :=
  match matchCodeFence responseText with
  | Some group1 => trim group1
  | None =>
      let start := indexOf "{" responseText in
      let end_ := lastIndexOf "}" responseText + 1 in
      if (0 <=? start) && (start <? end_)
      then slice start end_ responseText
      else responseText
  end.

Record KeyInsight : Type := {
  timestamp : json;
  importance : json;
  text : string;
}.

(** The callback of [rawKeyInsights.map]. An array is of type "object" but
    has neither key, so it takes the last branch like every other item. *)
Definition normalizeKeyInsight (item : json) : KeyInsight :=
  let other :=
    {| timestamp := JNum "0"; importance := JNum "5";
       text := match item with JStr s => s | _ => toString item end |} in
  match item with
  | JObj fields =>
      match assoc "timestamp" fields, assoc "importance" fields with
      | Some t, Some i =>
          {| timestamp := t; importance := i;
             text := match assoc "text" fields with
                     | None | Some JNull => toString (JStr "")
                     | Some v => toString v
                     end |}
      | _, _ => other
      end
  | _ => other
  end.

Record AnalysisData : Type := {
  summary : string;
  thought_trace : list json;
  chapters : list json;
  key_insights : list KeyInsight;
  timeline_data : list json;
  diagram_data : list json;
}.

Definition arrayOrEmpty (v : option json) : list json :=
  match v with
  | Some (JArr items) => items
  | _ => []
  end.

(** The assignments after JSON.parse. Reading a property of null throws. *)
Definition readAnalysis (parsed : json) : string + AnalysisData :=
  match parsed with
  | JNull => inl "Cannot read properties of null (reading 'summary')"
  | _ =>
      inr {| summary := match getProp "summary" parsed with
                        | Some (JStr s) => s
                        | _ => ""
                        end;
             thought_trace := arrayOrEmpty (getProp "thought_trace" parsed);
             chapters := arrayOrEmpty (getProp "chapters" parsed);
             key_insights := match getProp "key_insights" parsed with
                             | Some (JArr items) => map normalizeKeyInsight items
                             | _ => []
                             end;
             timeline_data := arrayOrEmpty (getProp "timeline_data" parsed);
             diagram_data := arrayOrEmpty (getProp "diagram_data" parsed) |}
  end.

Definition LF : string := String (ascii_of_nat 10) EmptyString.
Definition DQ : string := String (ascii_of_nat 34) EmptyString.

(** The text [{"summary":"s"}]. *)
Definition summary_s : string :=
  "{" +:+ DQ +:+ "summary" +:+ DQ +:+ ":" +:+ DQ +:+ "s" +:+ DQ +:+ "}".

End Parse.

(* ------------------------------------------------------------------ *)
(** ** The job record store

    The tables [videos] and [video_analyses] of the migrations: one row per
    job, keyed by id, and at most one analysis row per job, keyed by
    [video_id] (the unique constraint the upsert resolves conflicts on). *)

Module Store.
Import JS Parse.

Inductive VideoStatus : Type := uploading | processing | completed | failed.

Definition VideoStatus_eqb (a b : VideoStatus) : bool :=
  match a, b with
  | uploading, uploading | processing, processing
  | completed, completed | failed, failed => true
  | _, _ => false
  end.

Definition terminal (s : VideoStatus) : bool :=
  match s with
  | completed | failed => true
  | _ => false
  end.

Record VideoRow : Type := {
  storage_path : option string;
  status : VideoStatus;
  error_message : option string;
}.

Record DB : Type := {
  videos : gmap string VideoRow;
  video_analyses : gmap string AnalysisData;
}.

(** [from("videos").update(updates).eq("id", videoId)]: the columns named in
    [updates] are overwritten on the row with that id, if there is one. *)
Definition applyUpdate (st : VideoStatus) (msg : option string) (r : VideoRow)
  : VideoRow :=
  {| storage_path := storage_path r;
     status := st;
     error_message := match msg with
                      | Some m => Some m
                      | None => error_message r
                      end |}.

Definition updateVideos (id : string) (st : VideoStatus) (msg : option string)
    (d : DB) : DB :=
  {| videos := alter (applyUpdate st msg) id (videos d);
     video_analyses := video_analyses d |}.

(** [from("video_analyses").upsert({video_id, ...}, {onConflict: "video_id"})]
    when the store accepts it. *)
Definition upsertAnalysis (id : string) (a : AnalysisData) (d : DB) : DB :=
  {| videos := videos d;
     video_analyses := <[id := a]> (video_analyses d) |}.

Definition statusOf (d : DB) (id : string) : option VideoStatus :=
  status <$> videos d !! id.

Definition messageOf (d : DB) (id : string) : option string :=
  videos d !! id ≫= error_message.

End Store.

(* ------------------------------------------------------------------ *)
(** ** What one invocation of the edge function meets outside itself *)

Module Http.
Import JS Parse Store.

Record Blob : Type := { blob_type : string; blob_size : Z }.

Inductive StartResult : Type :=
| StartThrows
| StartHeaders (x_goog_upload_url : option string).

Inductive UploadResult : Type :=
| UploadThrows
| UploadNotOk (errorText : string)
| UploadOk (file_uri : option string).

Inductive GenerateResult : Type :=
| GenerateThrows (message : string)
| GenerateNotOk (errText : string)
| GenerateOk (text : option string).

(** The answers of the services the function calls. [json_parse] is
    JSON.parse: the value, or the message of the SyntaxError it throws.
    [upsert] answers [Some detail] when the write fails, [detail] being the
    text the function then reports. [duration] is the elapsed time as
    [toFixed(2)] prints it. *)
Record Env : Type := {
  gemini_key : option string;
  download : string -> option Blob;
  upload_start : Z -> string -> string -> StartResult;
  upload_bytes : string -> Blob -> UploadResult;
  generate : string -> string -> GenerateResult;
  json_parse : string -> string + json;
  upsert : string -> AnalysisData -> option string;
  duration : string;
}.

Inductive Method : Type := OPTIONS | POST.

(** [req.json()] rejects when [req_body] is [None]. *)
Record Request : Type := { req_method : Method; req_body : option json }.

Record Response : Type := { resp_status : Z; resp_body : json }.

Definition errorResponse (code : Z) (error : string) : Response :=
  {| resp_status := code; resp_body := JObj [("error", JStr error)] |}.

Definition errorDetailResponse (code : Z) (error : string) (detail : json)
  : Response :=
  {| resp_status := code;
     resp_body := JObj [("error", JStr error); ("detail", detail)] |}.

(** A falsy string: undefined, null or empty. *)
Definition nonEmpty (s : option string) : option string :=
  match s with
  | Some EmptyString | None => None
  | Some s' => Some s'
  end.

Definition truthyOpt (v : option json) : bool :=
  match v with
  | Some v' => truthy v'
  | None => false
  end.

Definition toStringOpt (v : option json) : string :=
  match v with
  | Some v' => toString v'
  | None => "undefined"
  end.

(** The first try block of the handler: the id of the job, or the 400
    response. The [in] operator throws on a body that is not an object. *)
Definition readVideoId (req : Request) : Response + string :=
  match req_body req with
  | None => inl (errorResponse 400 "Invalid JSON body")
  | Some body =>
      if negb (isObjectType body) then inl (errorResponse 400 "Invalid JSON body")
      else if hasProp "record" body
              && truthyOpt (getProp "record" body ≫= getProp "id")
      then inr (trim (toStringOpt (getProp "record" body ≫= getProp "id")))
      else if hasProp "video_id" body && truthyOpt (getProp "video_id" body)
      then inr (trim (toStringOpt (getProp "video_id" body)))
      else inl (errorResponse 400 "Missing video_id or webhook record")
  end.

(** *** The handler as a computation over the store

    A step either goes on with a value or returns the response of the whole
    handler, or lets an exception escape. The state is the store and the
    list of the status writes issued so far, oldest first. *)

Record StatusWrite : Type := {
  w_id : string;
  w_status : VideoStatus;
  w_message : option string;
}.

Record World : Type := { db : DB; writes : list StatusWrite }.

Inductive Outcome (A : Type) : Type :=
| Go (a : A)
| Respond (r : Response)
| Uncaught.
Arguments Go {A} a.
Arguments Respond {A} r.
Arguments Uncaught {A}.

Definition Handler (A : Type) : Type := World -> World * Outcome A.

Definition ret {A} (a : A) : Handler A := fun w => (w, Go a).

Definition respond {A} (r : Response) : Handler A := fun w => (w, Respond r).

Definition throw {A} : Handler A := fun w => (w, Uncaught).

Definition bind {A B} (m : Handler A) (k : A -> Handler B) : Handler B :=
  fun w =>
    match m w with
    | (w', Go a) => k a w'
    | (w', Respond r) => (w', Respond r)
    | (w', Uncaught) => (w', Uncaught)
    end.

Definition writeStatus (id : string) (st : VideoStatus) (msg : option string)
  : Handler unit :=
  fun w =>
    ({| db := updateVideos id st msg (db w);
        writes := writes w ++ [{| w_id := id; w_status := st; w_message := msg |}] |},
     Go tt).

Definition getVideo (id : string) : Handler (option VideoRow) :=
  fun w => (w, Go (videos (db w) !! id)).

Definition writeAnalysis (id : string) (a : AnalysisData) : Handler unit :=
  fun w => ({| db := upsertAnalysis id a (db w); writes := writes w |}, Go tt).

Definition processingWrite (id : string) : StatusWrite :=
  {| w_id := id; w_status := processing; w_message := None |}.

Definition failedWrite (id msg : string) : StatusWrite :=
  {| w_id := id; w_status := failed; w_message := Some msg |}.

(** The messages the handler stores with a failed status. *)
Definition storedMessages : list string :=
  [ "Failed to download video"; "Gemini upload initialization failed";
    "Gemini file upload failed"; "Gemini analysis failed";
    "Failed to save analysis" ].

End Http.

(* ------------------------------------------------------------------ *)
(** ** The edge function with [updateVideoStatus] *)

Module Pipeline.
Import JS Parse Store Http.

Notation "x <- c1 ;; c2" := (bind c1 (fun x => c2))
  (at level 100, c1 at next level, right associativity).
Notation "c1 ;;; c2" := (bind c1 (fun _ => c2))
  (at level 100, right associativity).

Definition updateVideoStatus (videoId : string) (st : VideoStatus)
    (errorMsg : option string) : Handler unit :=
  writeStatus videoId st (nonEmpty errorMsg).

(** The try block of "Step 4": the analysis, or the message of the error
    that reaches the catch clause. *)
Definition generateAnalysis (env : Env) (fileUri mimeType : string)
  : string + AnalysisData :=
  match generate env fileUri mimeType with
  | GenerateThrows m => inl m
  | GenerateNotOk errText => inl ("Gemini generate failed: " +:+ errText)
  | GenerateOk text =>
      let responseText := trim (match text with Some t => t | None => "" end) in
      if String.eqb responseText "" then inl "Empty response from Gemini"
      else
        match json_parse env (extractJson responseText) with
        | inl m => inl m
        | inr parsed => readAnalysis parsed
        end
  end.

Definition okResponse (env : Env) (videoId : string) : Response :=
  {| resp_status := 200;
     resp_body := JObj [("ok", JBool true); ("video_id", JStr videoId);
                        ("duration_seconds", JStr (duration env))] |}.

(** The handler up to the end of "Step 3": the id of the job, the uri of
    the uploaded file and its MIME type. *)
Definition upload (env : Env) (req : Request)
  : Handler (string * string * string) :=
  match req_method req with
  | OPTIONS => respond {| resp_status := 200; resp_body := JNull |}
  | POST =>
  match readVideoId req with
  | inl bad => respond bad
  | inr videoId =>
  match nonEmpty (gemini_key env) with
  | None => respond (errorResponse 500 "GEMINI_API_KEY not configured")
  | Some geminiKey =>
  video <- getVideo videoId ;;
  match video ≫= (fun v => nonEmpty (storage_path v)) with
  | None => respond (errorResponse 404 "Video not found or no storage_path")
  | Some path =>
  updateVideoStatus videoId processing None ;;;
  match download env path with
  | None =>
      updateVideoStatus videoId failed (Some "Failed to download video") ;;;
      respond (errorResponse 500 "Failed to download video from storage")
  | Some blob =>
  let mimeType :=
    if String.eqb (blob_type blob) "" then "video/mp4" else blob_type blob in
  let numBytes := blob_size blob in
  match (match upload_start env numBytes mimeType ("vync_" +:+ path) with
         | StartThrows => None
         | StartHeaders url => nonEmpty url
         end) with
  | None =>
      updateVideoStatus videoId failed
        (Some "Gemini upload initialization failed") ;;;
      respond (errorResponse 500 "Gemini upload start failed")
  | Some uploadUrl =>
  match (match upload_bytes env uploadUrl blob with
         | UploadThrows | UploadNotOk _ => None
         | UploadOk uri => nonEmpty uri
         end) with
  | None =>
      updateVideoStatus videoId failed (Some "Gemini file upload failed") ;;;
      respond (errorResponse 500 "Gemini file upload failed")
  | Some fileUri => ret (videoId, fileUri, mimeType)
  end end end end end end end.

(** "Step 4" to the end. *)
Definition analyse (env : Env) (job : string * string * string)
  : Handler Response :=
  let '(videoId, fileUri, mimeType) := job in
  match generateAnalysis env fileUri mimeType with
  | inl msg =>
      updateVideoStatus videoId failed (Some "Gemini analysis failed") ;;;
      respond (errorDetailResponse 502 "Gemini analysis failed" (JStr msg))
  | inr analysisData =>
  match upsert env videoId analysisData with
  | Some msg =>
      updateVideoStatus videoId failed (Some "Failed to save analysis") ;;;
      respond (errorDetailResponse 500 "Failed to save analysis" (JStr msg))
  | None =>
      writeAnalysis videoId analysisData ;;;
      updateVideoStatus videoId completed None ;;;
      respond (okResponse env videoId)
  end end.

Definition handler (env : Env) (req : Request) : Handler Response :=
  job <- upload env req ;; analyse env job.

(** One invocation on a store: the store and the status writes after it,
    and how it ended. *)
Definition serve (env : Env) (req : Request) (d : DB)
  : World * Outcome Response :=
  handler env req {| db := d; writes := [] |}.

End Pipeline.

(* ------------------------------------------------------------------ *)
(** ** The earlier edge function, which reports [rawPreview]

    It writes the status with [update({ status })] alone, has no
    "processing" write, and leaves the upload fetches outside any try. *)

Module Trigger.
Import JS Parse Store Http.

Notation "x <- c1 ;; c2" := (bind c1 (fun x => c2))
  (at level 100, c1 at next level, right associativity).
Notation "c1 ;;; c2" := (bind c1 (fun _ => c2))
  (at level 100, right associativity).

Definition isHex (c : ascii) : bool :=
  let n := nat_of_ascii c in
  (((48 <=? n) && (n <=? 57)) || ((65 <=? n) && (n <=? 70))
   || ((97 <=? n) && (n <=? 102)))%nat.

(** [n] hexadecimal digits, then [rest] on what follows. *)
Fixpoint hexRun (n : nat) (rest : string -> bool) (s : string) : bool :=
  match n, s with
  | O, _ => rest s
  | S n', String c s' => isHex c && hexRun n' rest s'
  | S _, EmptyString => false
  end.

Definition dash (rest : string -> bool) (s : string) : bool :=
  match s with
  | String c s' => Ascii.eqb c "-" && rest s'
  | EmptyString => false
  end.

(** [UUID_REGEX.test(s)]. *)
Definition UUID_REGEX_test (s : string) : bool :=
  hexRun 8 (dash (hexRun 4 (dash (hexRun 4 (dash (hexRun 4 (dash
    (hexRun 12 (fun r => String.eqb r ""))))))))) s.

Definition markFailed (videoId : string) : Handler unit :=
  writeStatus videoId failed None.

(** The object [structured] of the inner catch clause. *)
Definition structured (errMsg responseText : string) : json :=
  JObj [("error", JStr "Gemini response is not valid JSON");
        ("parseError", JStr errMsg);
        ("rawLength", JNum (natToString (String.length responseText)));
        ("rawPreview", JStr (slice 0 500 responseText))].

(** The handler up to the test of the id against [UUID_REGEX]. *)
Definition upload (env : Env) (req : Request)
  : Handler (string * string * string) :=
  match req_method req with
  | OPTIONS => respond {| resp_status := 200; resp_body := JNull |}
  | POST =>
  match readVideoId req with
  | inl bad => respond bad
  | inr videoId =>
  match nonEmpty (gemini_key env) with
  | None => respond (errorResponse 500 "GEMINI_API_KEY not set")
  | Some geminiKey =>
  video <- getVideo videoId ;;
  match video ≫= (fun v => nonEmpty (storage_path v)) with
  | None => respond (errorResponse 404 "Video not found or no storage_path")
  | Some path =>
  match download env path with
  | None =>
      markFailed videoId ;;;
      respond (errorResponse 500 "Failed to download video from storage")
  | Some blob =>
  let mimeType :=
    if String.eqb (blob_type blob) "" then "video/mp4" else blob_type blob in
  let numBytes := blob_size blob in
  match upload_start env numBytes mimeType path with
  | StartThrows => throw
  | StartHeaders url =>
  match nonEmpty url with
  | None =>
      markFailed videoId ;;;
      respond (errorResponse 500 "Gemini upload start failed")
  | Some uploadUrl =>
  match upload_bytes env uploadUrl blob with
  | UploadThrows => throw
  | UploadNotOk _ =>
      markFailed videoId ;;;
      respond (errorResponse 500 "Gemini file upload failed")
  | UploadOk uri =>
  match nonEmpty uri with
  | None =>
      markFailed videoId ;;;
      respond (errorResponse 500 "No file URI from Gemini")
  | Some fileUri =>
  if negb (UUID_REGEX_test videoId) then
    markFailed videoId ;;;
    respond {| resp_status := 400;
               resp_body := JObj [("error", JStr "Invalid video_id UUID format");
                                  ("videoId", JStr videoId)] |}
  else ret (videoId, fileUri, mimeType)
  end end end end end end end end end.

(** The generation, the parsing and the save. *)
Definition analyse (env : Env) (job : string * string * string)
  : Handler Response :=
  let '(videoId, fileUri, mimeType) := job in
  match generate env fileUri mimeType with
  | GenerateThrows msg =>
      markFailed videoId ;;;
      respond (errorDetailResponse 502 "Gemini/parse failed" (JStr msg))
  | GenerateNotOk errText =>
      markFailed videoId ;;;
      respond (errorDetailResponse 502 "Gemini generate failed" (JStr errText))
  | GenerateOk text =>
  let responseText := trim (match text with Some t => t | None => "" end) in
  if String.eqb responseText "" then
    markFailed videoId ;;;
    respond (errorResponse 502 "Empty Gemini response")
  else
  match json_parse env (extractJson responseText) with
  | inl errMsg =>
      markFailed videoId ;;;
      respond (errorDetailResponse 502 "Invalid JSON from Gemini"
                 (structured errMsg responseText))
  | inr parsed =>
  match readAnalysis parsed with
  | inl msg =>
      markFailed videoId ;;;
      respond (errorDetailResponse 502 "Gemini/parse failed" (JStr msg))
  | inr analysis =>
  match upsert env videoId analysis with
  | Some msg =>
      markFailed videoId ;;;
      respond (errorDetailResponse 500 "Failed to save analysis" (JStr msg))
  | None =>
      writeAnalysis videoId analysis ;;;
      writeStatus videoId completed None ;;;
      respond {| resp_status := 200;
                 resp_body := JObj [("ok", JBool true);
                                    ("video_id", JStr videoId)] |}
  end end end end.

Definition handler (env : Env) (req : Request) : Handler Response :=
  job <- upload env req ;; analyse env job.

Definition serve (env : Env) (req : Request) (d : DB)
  : World * Outcome Response :=
  handler env req {| db := d; writes := [] |}.

End Trigger.

(* ------------------------------------------------------------------ *)
(** ** The status synchronisation client

    The second effect of [AnalysisView] for one job id, when the parent
    passes no payload. React state, the refs and the handles of the effect
    are the fields of one record; every callback the event loop can run is
    one event. A poll is taken with the answers of the queries it issues,
    so a poll and its promise chain are one event; requests that are still
    in flight when the effect is cleaned up are outside the model, and so is
    the separate progress-step effect. *)

Module Sync.
Import JS.

Definition POLL_INTERVAL_MS : Z := 3000.
Definition MAX_POLL_TIMEOUT_MS : Z := 5 * 60 * 1000.

Definition FAILED_MESSAGE : string :=
  "Analysis failed. Please try again or use a shorter video.".
Definition TIMEOUT_MESSAGE : string :=
  "Analysis is taking longer than expected (5 min). Please try again or use a shorter video.".

(** A row of [video_analyses] as a query or a change event delivers it;
    [None] is null or undefined. *)
Record VideoAnalysisRow : Type := {
  id : option string;
  video_id : option string;
  summary : option json;
  thought_trace : option json;
  chapters : option json;
  key_insights : option json;
  timeline_data : option json;
  diagram_data : option json;
}.

Record GeminiAnalysisPayload : Type := {
  p_summary : option string;
  p_thought_trace : list json;
  p_chapters : list json;
  p_key_insights : list json;
  p_timeline_data : option (list json);
  p_diagram_data : option (list json);
  p_timelineMarkers : list json;
  p_consoleLogs : list json;
  p_criticalPoints : list json;
  p_summaryMetrics : list json;
}.

(** The answer of one query of the supabase client. *)
Inductive QueryResult (A : Type) : Type :=
| QueryThrows (message : string)
| QueryError (code : option string) (message : string)
| QueryData (data : option A).
Arguments QueryThrows {A} message.
Arguments QueryError {A} code message.
Arguments QueryData {A} data.

(** The answers to the queries one call of [runPoll] can issue. *)
Record PollAnswers : Type := {
  analysisOfJob : QueryResult VideoAnalysisRow;
  latestAnalysis : QueryResult VideoAnalysisRow;
  statusOfJob : QueryResult string;
}.

Record State : Type := {
  internalPayload : option GeminiAnalysisPayload;
  loading : bool;
  error : option string;
  fallbackVideoId : option string;
  videoStatus : option string;
  pollRef : bool;
  earlyPollTimer : bool;
  channelAnalysis : bool;
  channelVideo : bool;
  pollStartTime : Z;
  firstPoll : bool;
  firstFetch : bool;
  firstStatus : bool;
}.

Section Client.

(** JSON.parse: the value, or the message of the error. *)
Variable JSON_parse : string -> string + json.

Definition ensureArray (val : option json) : list json :=
  match val with
  | Some (JArr items) => items
  | Some (JStr s) =>
      match JSON_parse s with
      | inr (JArr items) => items
      | _ => []
      end
  | _ => []
  end.

Definition ensureString (val : option json) : string :=
  match val with
  | Some (JStr s) => s
  | None | Some JNull => ""
  | Some v => toString v
  end.

Definition ensureKeyInsights (val : option json) : list json :=
  match val with
  | Some (JArr items) =>
      map (fun item =>
             match item with
             | JObj fields =>
                 match assoc "text" fields with
                 | Some _ => item
                 | None => JStr (toString item)
                 end
             | JStr s => JStr s
             | _ => JStr (toString item)
             end) items
  | _ => []
  end.

Definition rowToPayload (row : option VideoAnalysisRow)
  : option GeminiAnalysisPayload :=
  match row with
  | None => None
  | Some r =>
      match id r, video_id r with
      | None, None => None
      | _, _ =>
          let timelineData := ensureArray (timeline_data r) in
          let diagramData := ensureArray (diagram_data r) in
          Some {| p_summary :=
                    (let s := ensureString (summary r) in
                     if String.eqb s "" then None else Some s);
                  p_thought_trace := ensureArray (thought_trace r);
                  p_chapters := ensureArray (chapters r);
                  p_key_insights := ensureKeyInsights (key_insights r);
                  p_timeline_data :=
                    match timelineData with [] => None | _ => Some timelineData end;
                  p_diagram_data :=
                    match diagramData with [] => None | _ => Some diagramData end;
                  p_timelineMarkers := timelineData;
                  p_consoleLogs := [];
                  p_criticalPoints := [];
                  p_summaryMetrics := [] |}
      end
  end.

(** *** The state setters *)

Definition setInternalPayload (p : option GeminiAnalysisPayload) (s : State) :=
  {| internalPayload := p; loading := loading s; error := error s;
     fallbackVideoId := fallbackVideoId s; videoStatus := videoStatus s;
     pollRef := pollRef s; earlyPollTimer := earlyPollTimer s;
     channelAnalysis := channelAnalysis s; channelVideo := channelVideo s;
     pollStartTime := pollStartTime s; firstPoll := firstPoll s;
     firstFetch := firstFetch s; firstStatus := firstStatus s |}.

Definition setLoading (b : bool) (s : State) :=
  {| internalPayload := internalPayload s; loading := b; error := error s;
     fallbackVideoId := fallbackVideoId s; videoStatus := videoStatus s;
     pollRef := pollRef s; earlyPollTimer := earlyPollTimer s;
     channelAnalysis := channelAnalysis s; channelVideo := channelVideo s;
     pollStartTime := pollStartTime s; firstPoll := firstPoll s;
     firstFetch := firstFetch s; firstStatus := firstStatus s |}.

Definition setError (e : option string) (s : State) :=
  {| internalPayload := internalPayload s; loading := loading s; error := e;
     fallbackVideoId := fallbackVideoId s; videoStatus := videoStatus s;
     pollRef := pollRef s; earlyPollTimer := earlyPollTimer s;
     channelAnalysis := channelAnalysis s; channelVideo := channelVideo s;
     pollStartTime := pollStartTime s; firstPoll := firstPoll s;
     firstFetch := firstFetch s; firstStatus := firstStatus s |}.

Definition setFallbackVideoId (v : option string) (s : State) :=
  {| internalPayload := internalPayload s; loading := loading s;
     error := error s; fallbackVideoId := v; videoStatus := videoStatus s;
     pollRef := pollRef s; earlyPollTimer := earlyPollTimer s;
     channelAnalysis := channelAnalysis s; channelVideo := channelVideo s;
     pollStartTime := pollStartTime s; firstPoll := firstPoll s;
     firstFetch := firstFetch s; firstStatus := firstStatus s |}.

Definition setVideoStatus (v : option string) (s : State) :=
  {| internalPayload := internalPayload s; loading := loading s;
     error := error s; fallbackVideoId := fallbackVideoId s; videoStatus := v;
     pollRef := pollRef s; earlyPollTimer := earlyPollTimer s;
     channelAnalysis := channelAnalysis s; channelVideo := channelVideo s;
     pollStartTime := pollStartTime s; firstPoll := firstPoll s;
     firstFetch := firstFetch s; firstStatus := firstStatus s |}.

(** [clearInterval(pollRef.current); pollRef.current = null]. *)
Definition clearPoll (s : State) :=
  {| internalPayload := internalPayload s; loading := loading s;
     error := error s; fallbackVideoId := fallbackVideoId s;
     videoStatus := videoStatus s;
     pollRef := false; earlyPollTimer := earlyPollTimer s;
     channelAnalysis := channelAnalysis s; channelVideo := channelVideo s;
     pollStartTime := pollStartTime s; firstPoll := firstPoll s;
     firstFetch := firstFetch s; firstStatus := firstStatus s |}.

(** The handles the effect cannot use any more. *)
Definition spend (poll early first_poll first_fetch first_status : bool)
    (s : State) :=
  {| internalPayload := internalPayload s; loading := loading s;
     error := error s; fallbackVideoId := fallbackVideoId s;
     videoStatus := videoStatus s;
     pollRef := pollRef s && negb poll;
     earlyPollTimer := earlyPollTimer s && negb early;
     channelAnalysis := channelAnalysis s; channelVideo := channelVideo s;
     pollStartTime := pollStartTime s;
     firstPoll := firstPoll s && negb first_poll;
     firstFetch := firstFetch s && negb first_fetch;
     firstStatus := firstStatus s && negb first_status |}.

(** *** The callbacks of the effect *)

Definition nonEmpty (s : option string) : option string :=
  match s with
  | Some EmptyString | None => None
  | Some s' => Some s'
  end.

Definition applyResult (data : option GeminiAnalysisPayload)
    (fromFallbackVideoId : option string) (s : State) : State :=
  match data with
  | None => s
  | Some d =>
      let s1 := setLoading false (setError None (setInternalPayload (Some d) s)) in
      match nonEmpty fromFallbackVideoId with
      | Some v => setFallbackVideoId (Some v) s1
      | None => s1
      end
  end.

(** The callback of both [postgres_changes] handlers on [video_analyses];
    [new] is [p.new]. *)
Definition onAnalysisChange (new : VideoAnalysisRow) (s : State) : State :=
  match rowToPayload (Some new) with
  | Some payload => applyResult (Some payload) None s
  | None => s
  end.

Definition markFailed (s : State) : State :=
  setLoading false (setError (Some FAILED_MESSAGE) (clearPoll s)).

Definition isFailed (status : option string) : bool :=
  match status with
  | Some st => String.eqb st "failed"
  | None => false
  end.

(** What both the change handler on [videos] and [fetchVideoStatus] do
    with the status they read. *)
Definition noteStatus (status : option string) (s : State) : State :=
  let s1 := match nonEmpty status with
            | Some st => setVideoStatus (Some st) s
            | None => s
            end in
  if isFailed status then markFailed s1 else s1.

Definition onVideoChange (status : option string) (s : State) : State :=
  noteStatus status s.

Definition is400 (code : option string) (message : string) : bool :=
  match code with
  | Some c => String.eqb c "PGRST301"
  | None => false
  end
  || includes "400" message
  || includes "bad request" (toLowerCase message).

Definition fetchOnce (setErrorOnFail : bool)
    (answer : QueryResult VideoAnalysisRow) (s : State)
  : State * option GeminiAnalysisPayload :=
  match answer with
  | QueryError code message =>
      (if setErrorOnFail && negb (is400 code message)
       then setLoading false (setError (Some message) s)
       else s, None)
  | QueryData data => (s, rowToPayload data)
  | QueryThrows msg =>
      (if setErrorOnFail then setLoading false (setError (Some msg) s) else s,
       None)
  end.

Definition fetchVideoStatus (answer : QueryResult string) (s : State) : State :=
  match answer with
  | QueryData status => noteStatus status s
  | QueryError _ _ | QueryThrows _ => s
  end.

Definition fetchLatestAnalysis (answer : QueryResult VideoAnalysisRow)
    (s : State) : State * bool :=
  match answer with
  | QueryData (Some row) =>
      match rowToPayload (Some row), nonEmpty (video_id row) with
      | Some payload, Some owner =>
          (applyResult (Some payload) (Some owner) s, true)
      | _, _ => (s, false)
      end
  | _ => (s, false)
  end.

(** The promise chain of [runPoll]. *)
Definition pollChain (a : PollAnswers) (s : State) : State :=
  let '(s1, payload) := fetchOnce false (analysisOfJob a) s in
  match payload with
  | Some p => applyResult (Some p) None s1
  | None =>
      let '(s2, used) := fetchLatestAnalysis (latestAnalysis a) s1 in
      if used then s2 else fetchVideoStatus (statusOfJob a) s2
  end.

Definition runPoll (now : Z) (a : PollAnswers) (s : State) : State :=
  if MAX_POLL_TIMEOUT_MS <? now - pollStartTime s
  then setLoading false (setError (Some TIMEOUT_MESSAGE) (clearPoll s))
  else pollChain a s.

(** The chain of [fetchOnce(true)] in the effect body. *)
Definition firstFetchChain (a : PollAnswers) (s : State) : State :=
  let '(s1, payload) := fetchOnce true (analysisOfJob a) s in
  match payload with
  | Some p => applyResult (Some p) None s1
  | None => fst (fetchLatestAnalysis (latestAnalysis a) (setLoading true s1))
  end.

(** The state when the effect body has run at time [now]: the values of
    the reset effect, both channels subscribed, the interval and the early
    timer set, and the three requests of the body in flight. *)
Definition mount (now : Z) : State :=
  {| internalPayload := None; loading := true; error := None;
     fallbackVideoId := None; videoStatus := Some "processing";
     pollRef := true; earlyPollTimer := true;
     channelAnalysis := true; channelVideo := true;
     pollStartTime := now;
     firstPoll := true; firstFetch := true; firstStatus := true |}.

(** The function the effect returns. *)
Definition cleanup (s : State) : State :=
  {| internalPayload := internalPayload s; loading := loading s;
     error := error s; fallbackVideoId := fallbackVideoId s;
     videoStatus := videoStatus s;
     pollRef := false; earlyPollTimer := false;
     channelAnalysis := false; channelVideo := false;
     pollStartTime := pollStartTime s;
     firstPoll := false; firstFetch := false; firstStatus := false |}.

Inductive Event : Type :=
| AnalysisChange (new : VideoAnalysisRow)
| VideoChange (status : option string)
| FirstStatus (answer : QueryResult string)
| FirstPoll (a : PollAnswers)
| FirstFetch (a : PollAnswers)
| Interval (now : Z) (a : PollAnswers)
| EarlyTimer (now : Z) (a : PollAnswers)
| Cleanup.

(** An event whose source is gone does nothing. *)
Definition step (s : State) (e : Event) : State :=
  match e with
  | AnalysisChange new => if channelAnalysis s then onAnalysisChange new s else s
  | VideoChange status => if channelVideo s then onVideoChange status s else s
  | FirstStatus answer =>
      if firstStatus s
      then fetchVideoStatus answer (spend false false false false true s) else s
  | FirstPoll a =>
      if firstPoll s then pollChain a (spend false false true false false s) else s
  | FirstFetch a =>
      if firstFetch s
      then firstFetchChain a (spend false false false true false s) else s
  | Interval now a => if pollRef s then runPoll now a s else s
  | EarlyTimer now a =>
      if earlyPollTimer s
      then runPoll now a (spend false true false false false s) else s
  | Cleanup => cleanup s
  end.

Definition run (s : State) (es : list Event) : State := fold_left step es s.

(** The poll interval, the early timer and the two subscriptions. *)
Definition live (s : State) : bool * bool * bool * bool :=
  (pollRef s, earlyPollTimer s, channelAnalysis s, channelVideo s).

(** *** What the component renders *)

Inductive Rendered : Type :=
| Ready (payload : GeminiAnalysisPayload) (showingLatestFor : option string)
| Failed (message : string)
| Error (message : string)
| Pending.

Definition render (s : State) : Rendered :=
  match internalPayload s with
  | Some p => Ready p (fallbackVideoId s)
  | None =>
      if isFailed (videoStatus s)
      then Failed (match nonEmpty (error s) with
                   | Some e => e
                   | None => FAILED_MESSAGE
                   end)
      else match nonEmpty (error s) with
           | Some e => Error e
           | None => Pending
           end
  end.

End Client.
End Sync.

(* ------------------------------------------------------------------ *)
(** ** Concrete stores, requests and services *)

Module Examples.
Import JS Parse Store Http.

Definition jobId : string := "123e4567-e89b-12d3-a456-426614174000".

Definition job (st : VideoStatus) : VideoRow :=
  {| storage_path := Some "clip.mp4"; status := st; error_message := None |}.

Definition noJobs : DB := {| videos := ∅; video_analyses := ∅ |}.

Definition oneJob (id : string) (st : VideoStatus) : DB :=
  {| videos := {[ id := job st ]}; video_analyses := ∅ |}.

(** The body [{video_id: id}] of a direct call. *)
Definition directCall (id : string) : Request :=
  {| req_method := POST; req_body := Some (JObj [("video_id", JStr id)]) |}.

Definition clip : Blob := {| blob_type := "video/mp4"; blob_size := 1024 |}.

(** JSON.parse on the two texts the examples hand to it. *)
Definition parseExample (s : string) : string + json :=
  if String.eqb s summary_s then inr (JObj [("summary", JStr "s")])
  else inl "Unexpected end of JSON input".

(** Services that all answer well; the inference text is
    [{"summary":"s"}]. *)
Definition allWell : Env :=
  {| gemini_key := Some "key";
     download := fun _ => Some clip;
     upload_start := fun _ _ _ => StartHeaders (Some "https://upload.example/1");
     upload_bytes := fun _ _ => UploadOk (Some "files/1");
     generate := fun _ _ => GenerateOk (Some summary_s);
     json_parse := parseExample;
     upsert := fun _ _ => None;
     duration := "1.00" |}.

(** The storage download fails. *)
Definition downloadFails : Env :=
  {| gemini_key := Some "key";
     download := fun _ => None;
     upload_start := upload_start allWell;
     upload_bytes := upload_bytes allWell;
     generate := generate allWell;
     json_parse := parseExample;
     upsert := fun _ _ => None;
     duration := "1.00" |}.

(** The upload negotiation answers without an upload URL. *)
Definition noUploadUrl : Env :=
  {| gemini_key := Some "key";
     download := fun _ => Some clip;
     upload_start := fun _ _ _ => StartHeaders None;
     upload_bytes := upload_bytes allWell;
     generate := generate allWell;
     json_parse := parseExample;
     upsert := fun _ _ => None;
     duration := "1.00" |}.

(** The inference text is an empty fenced block, six backquotes: the text
    handed to JSON.parse is empty and JSON.parse throws. *)
Definition emptyFence : string := "``````".

Definition unparseable : Env :=
  {| gemini_key := Some "key";
     download := fun _ => Some clip;
     upload_start := upload_start allWell;
     upload_bytes := upload_bytes allWell;
     generate := fun _ _ => GenerateOk (Some emptyFence);
     json_parse := parseExample;
     upsert := fun _ _ => None;
     duration := "1.00" |}.

(** *** For the client *)

Definition analysisRow (owner text : string) : Sync.VideoAnalysisRow :=
  {| Sync.id := Some ("row-of-" +:+ owner);
     Sync.video_id := Some owner;
     Sync.summary := Some (JStr text);
     Sync.thought_trace := Some (JArr []);
     Sync.chapters := Some (JArr []);
     Sync.key_insights := Some (JArr []);
     Sync.timeline_data := Some (JArr []);
     Sync.diagram_data := Some (JArr []) |}.

Definition payloadWith (text : string) : Sync.GeminiAnalysisPayload :=
  {| Sync.p_summary := Some text;
     Sync.p_thought_trace := [];
     Sync.p_chapters := [];
     Sync.p_key_insights := [];
     Sync.p_timeline_data := None;
     Sync.p_diagram_data := None;
     Sync.p_timelineMarkers := [];
     Sync.p_consoleLogs := [];
     Sync.p_criticalPoints := [];
     Sync.p_summaryMetrics := [] |}.

(** A poll that finds no analysis row at all and a job still processing. *)
Definition nothingYet : Sync.PollAnswers :=
  {| Sync.analysisOfJob := Sync.QueryData None;
     Sync.latestAnalysis := Sync.QueryData None;
     Sync.statusOfJob := Sync.QueryData (Some "processing") |}.


(** A poll whose query for the job throws while the latest row of the
    table belongs to another job. *)
Definition otherJobIsLatest : Sync.PollAnswers :=
  {| Sync.analysisOfJob := Sync.QueryThrows "Failed to fetch";
     Sync.latestAnalysis := Sync.QueryData (Some (analysisRow "other-job" "other"));
     Sync.statusOfJob := Sync.QueryData (Some "completed") |}.

(** The effect starts at time 0, its three first requests find nothing,
    the early timer fires after one second and the interval every three
    seconds, up to and including the tick at 300 s. *)
Definition fiveQuietMinutes : list Sync.Event :=
  [ Sync.FirstStatus (Sync.QueryData (Some "processing"));
    Sync.FirstPoll nothingYet; Sync.FirstFetch nothingYet;
    Sync.EarlyTimer 1000 nothingYet ]
  ++ map (fun k => Sync.Interval (3000 * Z.of_nat k) nothingYet) (seq 1 100).

(** A poll that finds the analysis row of the job. *)
Definition found (text : string) : Sync.PollAnswers :=
  {| Sync.analysisOfJob := Sync.QueryData (Some (analysisRow jobId text));
     Sync.latestAnalysis := Sync.QueryData (Some (analysisRow jobId text));
     Sync.statusOfJob := Sync.QueryData (Some "completed") |}.

(** The view after the insert event of the analysis row arrived first. *)
Definition firstDelivered : Sync.State :=
  Sync.step parseExample (Sync.mount 0)
    (Sync.AnalysisChange (analysisRow jobId "first")).

(** The view before and after the first tick later than five minutes. *)
Definition stillWaiting : Sync.State :=
  Sync.run parseExample (Sync.mount 0) fiveQuietMinutes.

Definition timedOut : Sync.State :=
  Sync.step parseExample stillWaiting (Sync.Interval 303000 nothingYet).

End Examples.

(* ------------------------------------------------------------------ *)
(** ** The view under its parent, and what it shows

    [AnalysisView] takes an optional [payload] prop; the page mounts it
    through [AnalysisViewWithConsole], which always passes one. A prop is
    [None] when it is not passed (undefined) and [Some None] when it is
    null. *)

Module View.
Import JS Sync.

Definition PayloadProp : Type := option (option GeminiAnalysisPayload).

(** [payloadProp !== undefined ? payloadProp : internalPayload]. *)
Definition shownPayload (payloadProp : PayloadProp) (s : State)
  : option GeminiAnalysisPayload :=
  match payloadProp with
  | Some p => p
  | None => internalPayload s
  end.

(** The state of the component before its subscription effect runs: the
    initial values of [useState] and [useRef], which the reset effect sets
    again for a new job id. *)
Definition initial (payloadProp : PayloadProp) : State :=
  {| internalPayload := None;
     loading := match payloadProp with
                | Some (Some _) => false
                | _ => true
                end;
     error := None; fallbackVideoId := None;
     videoStatus := Some "processing";
     pollRef := false; earlyPollTimer := false;
     channelAnalysis := false; channelVideo := false;
     pollStartTime := 0;
     firstPoll := false; firstFetch := false; firstStatus := false |}.

(** The subscription effect at time [now]:
    [if (payloadProp !== undefined || !videoId) return;] and then the body
    that [mount] describes. *)
Definition startEffect (payloadProp : PayloadProp) (videoId : string)
    (now : Z) : State :=
  match payloadProp with
  | Some _ => initial payloadProp
  | None => if String.eqb videoId "" then initial payloadProp else mount now
  end.

(** The return statements of the component, with the payload it shows. *)
Definition renderView (payloadProp : PayloadProp) (s : State) : Rendered :=
  match shownPayload payloadProp s with
  | Some p => Ready p (fallbackVideoId s)
  | None =>
      if isFailed (videoStatus s)
      then Failed (match Sync.nonEmpty (error s) with
                   | Some e => e
                   | None => FAILED_MESSAGE
                   end)
      else match Sync.nonEmpty (error s) with
           | Some e => Error e
           | None => Pending
           end
  end.

(** *** The progress effect *)

Definition PROGRESS_STEPS : list string :=
  [ "Video secured in vault..."; "Transferring to Gemini Engine...";
    "Performing High-Reasoning Scan..." ].

(** [if (!loading || payload || videoStatus === "failed") return;] *)
Definition progressRuns (payloadProp : PayloadProp) (s : State) : bool :=
  loading s
  && match shownPayload payloadProp s with Some _ => false | None => true end
  && negb (isFailed (videoStatus s)).

(** The updater of the interval:
    [s < PROGRESS_STEPS.length - 1 ? s + 1 : s]. *)
Definition advance (step : nat) : nat :=
  if (step <? length PROGRESS_STEPS - 1)%nat then S step else step.

(** *** The text of a key insight in the list *)

(** [typeof insight === "string" ? insight
     : (insight && typeof insight === "object" && "text" in insight
        ? insight.text : String(insight))]; the child React is given. *)
Definition insightText (insight : json) : json :=
  match insight with
  | JStr s => JStr s
  | JObj fields =>
      match assoc "text" fields with
      | Some t => t
      | None => JStr (toString insight)
      end
  | _ => JStr (toString insight)
  end.

(** *** [AnalysisViewWithConsole] *)

Record Console : Type := {
  payload : option GeminiAnalysisPayload;
  channel : bool;
  fetching : bool;
}.

Inductive ConsoleEvent : Type :=
| Changed (new : VideoAnalysisRow)
| Fetched (answer : QueryResult VideoAnalysisRow)
| Unmounted.

(** What a delete event carries as [p.new]: an object without columns. *)
Definition noColumns : VideoAnalysisRow :=
  {| id := None; video_id := None; summary := None; thought_trace := None;
     chapters := None; key_insights := None; timeline_data := None;
     diagram_data := None |}.

Section Wrapper.

Variable JSON_parse : string -> string + json.

(** The state when the effect body has run: subscribed to every event on
    the rows of the job, one query in flight. *)
Definition opened : Console :=
  {| payload := None; channel := true; fetching := true |}.

Definition setPayload (p : option GeminiAnalysisPayload) (c : Console)
  : Console :=
  match p with
  | Some _ => {| payload := p; channel := channel c; fetching := fetching c |}
  | None => c
  end.

Definition consoleStep (c : Console) (e : ConsoleEvent) : Console :=
  match e with
  | Changed new =>
      if channel c then setPayload (rowToPayload JSON_parse (Some new)) c else c
  | Fetched answer =>
      if fetching c then
        let c' := {| payload := payload c; channel := channel c;
                     fetching := false |} in
        match answer with
        | QueryData data => setPayload (rowToPayload JSON_parse data) c'
        | QueryError _ _ | QueryThrows _ => c'
        end
      else c
  | Unmounted => {| payload := payload c; channel := false; fetching := false |}
  end.

Definition consoleRun (es : list ConsoleEvent) : Console :=
  fold_left consoleStep es opened.

(** What the page shows for the job: the view under the wrapper, given
    the payload of the wrapper as its prop. *)
Definition shown (videoId : string) (now : Z) (c : Console) : Rendered :=
  renderView (Some (payload c)) (startEffect (Some (payload c)) videoId now).

End Wrapper.
End View.

(* ------------------------------------------------------------------ *)
(** ** The edge function [chat_with_video] *)

Module Chat.
Import JS Http.

Inductive Verb : Type := OPTIONS | POST | OtherVerb.

Record ChatRequest : Type := { verb : Verb; body : option json }.

(** The answer of the generation request: it throws, it is not ok and has
    the text [errText], or it is ok and the first candidate has the text
    [text], if any. *)
Inductive ChatResult : Type :=
| ChatThrows (message : string)
| ChatNotOk (errText : string)
| ChatOk (text : option string).

(** The secret, and the generation service as a function of the system
    instruction and of the question. *)
Record ChatEnv : Type := {
  chat_key : option string;
  chat_generate : string -> string -> ChatResult;
}.

Definition SYSTEM_PROMPT : string :=
  "You are Vync AI. Answer the user's question based ONLY on the provided video analysis data. If the data doesn't mention the answer, say you need more visual reasoning time.".

Definition NO_REPLY : string :=
  "I couldn't generate a reply. Please try again.".

Definition LF : string := String (ascii_of_nat 10) EmptyString.

(** [thought_trace.map((s, i) => `${i + 1}. ${String(s)}`)], from index
    [i]. *)
Fixpoint numbered (i : nat) (steps : list json) : list string :=
  match steps with
  | [] => []
  | s :: rest =>
      (natToString (i + 1)%nat +:+ ". " +:+ toString s)
      :: numbered (i + 1)%nat rest
  end.

Definition contextText (summary : string) (thought_trace : list json)
  : string :=
  join LF ([ "--- Video analysis ---"; "Summary: " +:+ summary;
             "Thought trace:" ]
           ++ numbered 0%nat thought_trace
           ++ [ "--- End of analysis ---" ]).

Definition systemInstruction (summary : string) (thought_trace : list json)
  : string :=
  SYSTEM_PROMPT +:+ LF +:+ LF +:+ "Use this video analysis data only:" +:+ LF
  +:+ contextText summary thought_trace.

(** [typeof body.question === "string" ? body.question.trim() : ""]. *)
Definition questionOf (b : json) : string :=
  match getProp "question" b with
  | Some (JStr q) => trim q
  | _ => ""
  end.

Definition summaryOf (b : json) : string :=
  match getProp "summary" b with
  | Some (JStr s) => s
  | _ => ""
  end.

Definition thoughtTraceOf (b : json) : list json :=
  match getProp "thought_trace" b with
  | Some (JArr items) => items
  | _ => []
  end.

(** The handler. Reading [body.question] of a null body throws outside
    any try block. *)
Definition handler (env : ChatEnv) (req : ChatRequest) : Outcome Response :=
  match verb req with
  | OPTIONS => Respond {| resp_status := 200; resp_body := JNull |}
  | OtherVerb => Respond (errorResponse 405 "Method not allowed")
  | POST =>
  match nonEmpty (chat_key env) with
  | None => Respond (errorResponse 500 "GEMINI_API_KEY not set")
  | Some geminiKey =>
  match body req with
  | None => Respond (errorResponse 400 "Invalid JSON body")
  | Some JNull => Uncaught
  | Some b =>
  let question := questionOf b in
  if String.eqb question "" then
    Respond (errorResponse 400 "question is required")
  else
  match chat_generate env
          (systemInstruction (summaryOf b) (thoughtTraceOf b)) question with
  | ChatThrows msg =>
      Respond (errorDetailResponse 500 "Chat failed" (JStr msg))
  | ChatNotOk errText =>
      Respond (errorDetailResponse 502 "Gemini request failed"
                 (JStr (slice 0 500 errText)))
  | ChatOk text =>
      Respond {| resp_status := 200;
                 resp_body :=
                   JObj [("reply",
                          JStr (match text with
                                | Some t => trim t
                                | None => NO_REPLY
                                end))] |}
  end end end end.

End Chat.

(* ------------------------------------------------------------------ *)
(** ** The name of an uploaded file (VideoUpload) *)

Module Upload.
Import JS.

Definition MAX_FILE_BYTES : Z := 50 * 1024 * 1024.

(** One character of the class the second [replace] removes: the number
    sign, the question mark, the percent sign, the ampersand, the two angle
    brackets, the double quote and the apostrophe. *)
Definition isSpecial (c : ascii) : bool :=
  match nat_of_ascii c with
  | 35%nat | 63%nat | 37%nat | 38%nat | 60%nat | 62%nat | 34%nat | 39%nat => true
  | _ => false
  end.

(** [name.replace(/\s+/g, "_")]: every run of white space becomes one
    underscore; [inRun] says that the character before was white space. *)
Fixpoint underscoreSpaces (inRun : bool) (s : string) : string :=
  match s with
  | EmptyString => EmptyString
  | String c s' =>
      if isSpace c then
        if inRun then underscoreSpaces true s'
        else String "_" (underscoreSpaces true s')
      else String c (underscoreSpaces false s')
  end.

(** The second [replace]: the special characters are removed. *)
Fixpoint dropSpecial (s : string) : string :=
  match s with
  | EmptyString => EmptyString
  | String c s' =>
      if isSpecial c then dropSpecial s' else String c (dropSpecial s')
  end.

Definition sanitizeFileName (name : string) : string :=
  let base := dropSpecial (underscoreSpaces false name) in
  let lastDot := lastIndexOf "." base in
  let stem := if 0 <? lastDot then slice 0 lastDot base else base in
  let ext := if 0 <? lastDot
             then slice lastDot (Z.of_nat (String.length base)) base
             else "" in
  slice 0 80 stem +:+ ext.

(** [`uploads/${Date.now()}-${safeName}`], [now] being what the template
    prints for the clock. *)
Definition getStoragePath (now : string) (fileName : string) : string :=
  let safeName := match sanitizeFileName fileName with
                  | EmptyString => "video"
                  | n => n
                  end in
  "uploads/" +:+ now +:+ "-" +:+ safeName.

(** Every character of [s] passes [ok]. *)
Fixpoint allChars (ok : ascii -> bool) (s : string) : bool :=
  match s with
  | EmptyString => true
  | String c s' => ok c && allChars ok s'
  end.

(** A character that is safe in a storage path: no white space, none of
    the special characters. *)
Definition safeChar (c : ascii) : bool := negb (isSpace c) && negb (isSpecial c).

End Upload.

(* ------------------------------------------------------------------ *)
(** ** What the function stores, and further concrete inputs *)

Module Stored.
Import JS Parse Store Http.

(** The analysis the function builds when the parsed value has none of the
    fields. *)
Definition emptyAnalysis : AnalysisData :=
  {| summary := ""; thought_trace := []; chapters := [];
     key_insights := []; timeline_data := []; diagram_data := [] |}.

(** The object literal the callback of [rawKeyInsights.map] returns, as
    the [key_insights] column holds it. *)
Definition storedKeyInsight (k : KeyInsight) : json :=
  JObj [("timestamp", timestamp k); ("importance", importance k);
        ("text", JStr (text k))].


(** A text that does not open with white space. *)
Definition opensClean (s : string) : bool :=
  match s with
  | String c _ => negb (isSpace c)
  | EmptyString => true
  end.

(** A job that an earlier invocation left failed. *)
Definition failedEarlier : DB :=
  {| videos := {[ "abc" := {| storage_path := Some "clip.mp4";
                              status := failed;
                              error_message := Some "Failed to download video" |} ]};
     video_analyses := ∅ |}.

(** A request whose body is not JSON. *)
Definition notJson : Request := {| req_method := POST; req_body := None |}.

(** The upload negotiation throws. *)
Definition startThrows : Env :=
  {| gemini_key := Some "key";
     download := fun _ => Some Examples.clip;
     upload_start := fun _ _ _ => StartThrows;
     upload_bytes := upload_bytes Examples.allWell;
     generate := generate Examples.allWell;
     json_parse := Examples.parseExample;
     upsert := fun _ _ => None;
     duration := "1.00" |}.

(** The inference answers with white space only. *)
Definition blankAnswer : Env :=
  {| gemini_key := Some "key";
     download := fun _ => Some Examples.clip;
     upload_start := upload_start Examples.allWell;
     upload_bytes := upload_bytes Examples.allWell;
     generate := fun _ _ => GenerateOk (Some (" " +:+ LF));
     json_parse := Examples.parseExample;
     upsert := fun _ _ => None;
     duration := "1.00" |}.

(** The inference answers "5", which JSON.parse reads as the number 5. *)
Definition numberAnswer : Env :=
  {| gemini_key := Some "key";
     download := fun _ => Some Examples.clip;
     upload_start := upload_start Examples.allWell;
     upload_bytes := upload_bytes Examples.allWell;
     generate := fun _ _ => GenerateOk (Some "5");
     json_parse := fun s => if String.eqb s "5" then inr (JNum "5")
                            else inl "Unexpected end of JSON input";
     upsert := fun _ _ => None;
     duration := "1.00" |}.

End Stored.

(* ------------------------------------------------------------------ *)
(** ** How an invocation of the edge function ends *)

Module Ends.
Import JS Parse Store Http.

(** [blob.type || "video/mp4"]. *)
Definition mimeTypeOf (blob : Blob) : string :=
  if String.eqb (blob_type blob) "" then "video/mp4" else blob_type blob.

(** The job an invocation resolves, with its storage path: the request is
    a POST, its body yields an id, the secret GEMINI_API_KEY is configured
    and the store has a row for the id with a storage path. These are the
    returns that precede the first status write of the handler, the same
    ones in the same order in both versions of the function. *)
Definition resolve (env : Env) (req : Request) (d : DB)
  : option (string * string) :=
  match req_method req, readVideoId req, nonEmpty (gemini_key env) with
  | POST, inr videoId, Some _ =>
      match videos d !! videoId ≫= (fun v => nonEmpty (storage_path v)) with
      | Some path => Some (videoId, path)
      | None => None
      end
  | _, _, _ => None
  end.

(** The invocation wrote [processing] and then [failed] with the message
    [msg] for the job [id], the store holds that status and that message
    for the job, and the invocation answered [r]. *)
Definition endsFailed (env : Env) (req : Request) (d : DB)
    (id msg : string) (r : Response) : Prop :=
  writes (fst (Pipeline.serve env req d))
  = [ processingWrite id; failedWrite id msg ]
  /\ statusOf (db (fst (Pipeline.serve env req d))) id = Some failed
  /\ messageOf (db (fst (Pipeline.serve env req d))) id = Some msg
  /\ snd (Pipeline.serve env req d) = Respond r.

(** The invocation wrote [processing] and then [completed] for the job
    [id], the store holds that status and the analysis [a] for the job,
    and the invocation answered 200. *)
Definition endsCompleted (env : Env) (req : Request) (d : DB)
    (id : string) (a : AnalysisData) : Prop :=
  writes (fst (Pipeline.serve env req d))
  = [ processingWrite id;
      {| w_id := id; w_status := completed; w_message := None |} ]
  /\ statusOf (db (fst (Pipeline.serve env req d))) id = Some completed
  /\ video_analyses (db (fst (Pipeline.serve env req d))) !! id = Some a
  /\ snd (Pipeline.serve env req d) = Respond (Pipeline.okResponse env id).

(** The secret GEMINI_API_KEY is not configured. *)
Definition noSecret : Env :=
  {| gemini_key := None;
     download := download Examples.allWell;
     upload_start := upload_start Examples.allWell;
     upload_bytes := upload_bytes Examples.allWell;
     generate := generate Examples.allWell;
     json_parse := Examples.parseExample;
     upsert := fun _ _ => None;
     duration := "1.00" |}.

(** The store refuses the analysis. *)
Definition saveFails : Env :=
  {| gemini_key := Some "key";
     download := download Examples.allWell;
     upload_start := upload_start Examples.allWell;
     upload_bytes := upload_bytes Examples.allWell;
     generate := generate Examples.allWell;
     json_parse := Examples.parseExample;
     upsert := fun _ _ => Some "permission denied for table video_analyses";
     duration := "1.00" |}.

End Ends.

(* ------------------------------------------------------------------ *)
(** * Properties *)

(** ** Strings *)

Section StringFacts.
Import JS Parse.

Lemma app_cons c (s t : string) : String c s +:+ t = String c (s +:+ t).
Proof. reflexivity. Qed.

Lemma app_nil (t : string) : "" +:+ t = t.
Proof. reflexivity. Qed.

Lemma lacks_cons c c' s :
  lacks c (String c' s) = true -> c' <> c /\ lacks c s = true.
Proof.
  simpl. intros H. apply andb_prop in H as [H1 H2]. split; [|done].
  apply negb_true_iff in H1. by apply Ascii.eqb_neq.
Qed.

Lemma startsWith_other p c c' s :
  c' <> c -> startsWith (String c p) (String c' s) = false.
Proof.
  intros H. unfold startsWith. simpl. destruct (ascii_dec c c'); congruence.
Qed.

Lemma startsWith_app p s : startsWith p (p +:+ s) = true.
Proof.
  unfold startsWith. induction p as [|a p IH]; [by destruct s|].
  rewrite app_cons. simpl. destruct (ascii_dec a a); [done|congruence].
Qed.

Lemma drop_app p s : drop (String.length p) (p +:+ s) = s.
Proof.
  induction p as [|a p IH]; [by destruct s|]. rewrite app_cons. by simpl.
Qed.

Lemma app_assoc_s (a b c : string) : (a +:+ b) +:+ c = a +:+ (b +:+ c).
Proof.
  induction a as [|x a IH]; [done|]. rewrite !app_cons. by rewrite IH.
Qed.

Lemma lazyUntilFence_eq s :
  lazyUntilFence s =
  if startsWith fence s then Some EmptyString
  else match s with
       | EmptyString => None
       | String c s' => option_map (String c) (lazyUntilFence s')
       end.
Proof. by destruct s. Qed.

Lemma matchCodeFence_eq s :
  matchCodeFence s =
  match (if startsWith fence s then langThenGroup (drop 3 s) else None) with
  | Some g => Some g
  | None =>
      match s with
      | EmptyString => None
      | String _ s' => matchCodeFence s'
      end
  end.
Proof. by destruct s. Qed.

Lemma lazyUntilFence_interior body rest :
  lacks "`" body = true ->
  lazyUntilFence (body +:+ fence +:+ rest) = Some body.
Proof.
  induction body as [|c body IH]; intros H.
  - rewrite app_nil, lazyUntilFence_eq. by rewrite startsWith_app.
  - apply lacks_cons in H as [Hc H].
    rewrite app_cons, lazyUntilFence_eq. unfold fence at 1.
    rewrite startsWith_other by done. by rewrite IH.
Qed.

Lemma spacesThenGroup_interior ws body rest :
  allSpace ws = true ->
  lacks "`" body = true ->
  spacesThenGroup (ws +:+ ("{" +:+ body) +:+ fence +:+ rest) = Some ("{" +:+ body).
Proof.
  intros Hws Hb. induction ws as [|c ws IH].
  - rewrite app_nil.
    pose proof (lazyUntilFence_interior ("{" +:+ body) rest) as HL.
    change ("{" +:+ body) with (String "{" body) in *.
    rewrite app_cons in *. simpl spacesThenGroup. apply HL.
    simpl. by rewrite Hb.
  - simpl in Hws. apply andb_prop in Hws as [Hc Hws].
    rewrite app_cons. simpl spacesThenGroup. rewrite Hc. by rewrite IH.
Qed.

Lemma langThenGroup_interior (lang : bool) ws body rest :
  allSpace ws = true ->
  lacks "`" body = true ->
  langThenGroup ((if lang then "json" else "") +:+ ws +:+ ("{" +:+ body)
                 +:+ fence +:+ rest)
  = Some ("{" +:+ body).
Proof.
  intros Hws Hb. unfold langThenGroup. destruct lang.
  - rewrite startsWith_app. change 4%nat with (String.length "json").
    rewrite drop_app. by rewrite spacesThenGroup_interior.
  - rewrite app_nil.
    assert (startsWith "json" (ws +:+ ("{" +:+ body) +:+ fence +:+ rest) = false)
      as ->.
    { destruct ws as [|c ws]; [done|].
      simpl in Hws. apply andb_prop in Hws as [Hc _].
      rewrite app_cons. apply startsWith_other. intros ->. done. }
    by apply spacesThenGroup_interior.
Qed.

Lemma matchCodeFence_first pre rest g :
  lacks "`" pre = true ->
  langThenGroup rest = Some g ->
  matchCodeFence (pre +:+ fence +:+ rest) = Some g.
Proof.
  intros Hpre Hg. induction pre as [|c pre IH].
  - rewrite app_nil, matchCodeFence_eq, startsWith_app.
    change 3%nat with (String.length fence). by rewrite drop_app, Hg.
  - apply lacks_cons in Hpre as [Hc Hpre].
    rewrite app_cons, matchCodeFence_eq. unfold fence at 1.
    rewrite startsWith_other by done. by apply IH.
Qed.

Lemma matchCodeFence_none s :
  lacks "`" s = true -> matchCodeFence s = None.
Proof.
  induction s as [|c s IH]; intros H; [done|].
  apply lacks_cons in H as [Hc H]. rewrite matchCodeFence_eq.
  unfold fence at 1. rewrite startsWith_other by done. by apply IH.
Qed.

Lemma startsWith_char c c' s :
  startsWith (String c EmptyString) (String c' s) = Ascii.eqb c' c.
Proof.
  unfold startsWith. simpl. destruct (ascii_dec c c') as [->|Hn].
  - destruct s; by rewrite Ascii.eqb_refl.
  - symmetry. apply Ascii.eqb_neq. congruence.
Qed.

Lemma indexOf_cons p a s :
  indexOf p (String a s) =
  if startsWith p (String a s) then 0
  else let i := indexOf p s in if i <? 0 then -1 else i + 1.
Proof. reflexivity. Qed.

Lemma lastIndexOf_cons p a s :
  lastIndexOf p (String a s) =
  let i := lastIndexOf p s in
  if 0 <=? i then i + 1 else if startsWith p (String a s) then 0 else -1.
Proof. reflexivity. Qed.

Lemma indexOf_first c pre rest :
  lacks c pre = true ->
  indexOf (String c EmptyString) (pre +:+ String c rest)
  = Z.of_nat (String.length pre).
Proof.
  induction pre as [|a pre IH]; intros H.
  - rewrite app_nil, indexOf_cons. by rewrite startsWith_char, Ascii.eqb_refl.
  - apply lacks_cons in H as [Ha H]. rewrite app_cons, indexOf_cons.
    rewrite startsWith_char. apply Ascii.eqb_neq in Ha. rewrite Ha.
    rewrite IH by done. cbv zeta.
    destruct (Z.ltb_spec (Z.of_nat (String.length pre)) 0); simpl String.length; lia.
Qed.

Lemma lastIndexOf_absent c s :
  lacks c s = true -> lastIndexOf (String c EmptyString) s = -1.
Proof.
  induction s as [|a s IH]; intros H; [done|].
  apply lacks_cons in H as [Ha H]. rewrite lastIndexOf_cons, IH by done.
  cbv zeta. change (0 <=? -1) with false. cbv iota.
  rewrite startsWith_char. apply Ascii.eqb_neq in Ha. by rewrite Ha.
Qed.

Lemma lastIndexOf_last c x post :
  lacks c post = true ->
  lastIndexOf (String c EmptyString) (x +:+ String c post)
  = Z.of_nat (String.length x).
Proof.
  intros H. induction x as [|a x IH].
  - rewrite app_nil, lastIndexOf_cons, lastIndexOf_absent by done.
    cbv zeta. change (0 <=? -1) with false. cbv iota.
    by rewrite startsWith_char, Ascii.eqb_refl.
  - rewrite app_cons, lastIndexOf_cons, IH. cbv zeta.
    destruct (Z.leb_spec 0 (Z.of_nat (String.length x))); simpl String.length; lia.
Qed.

Lemma length_app_s (s t : string) :
  String.length (s +:+ t) = (String.length s + String.length t)%nat.
Proof.
  induction s as [|a s IH]; [done|]. rewrite app_cons. simpl. by rewrite IH.
Qed.

Lemma substring_whole (m post : string) :
  String.substring 0 (String.length m) (m +:+ post) = m.
Proof.
  induction m as [|a m IH]; [by destruct post|].
  rewrite app_cons. simpl. by rewrite IH.
Qed.

Lemma substring_skip (pre r : string) n :
  String.substring (String.length pre) n (pre +:+ r) = String.substring 0 n r.
Proof.
  induction pre as [|a pre IH]; [done|]. rewrite app_cons. by simpl.
Qed.

Lemma slice_middle (pre m post : string) :
  slice (Z.of_nat (String.length pre))
        (Z.of_nat (String.length pre + String.length m)) (pre +:+ m +:+ post)
  = m.
Proof.
  unfold slice. rewrite Nat2Z.id.
  replace (Z.to_nat (Z.of_nat (String.length pre + String.length m)
                     - Z.of_nat (String.length pre)))
    with (String.length m) by lia.
  by rewrite substring_skip, substring_whole.
Qed.

End StringFacts.

(** ** The inference response *)

Section ParseFacts.
Import JS Parse.

Lemma extractJson_fenced pre (lang : bool) ws body post :
  lacks "`" pre = true ->
  allSpace ws = true ->
  lacks "`" body = true ->
  extractJson (pre +:+ fence +:+ (if lang then "json" else "") +:+ ws
               +:+ ("{" +:+ body) +:+ fence +:+ post)
  = trim ("{" +:+ body).
Proof.
  intros Hpre Hws Hb. unfold extractJson.
  by rewrite (matchCodeFence_first pre _ ("{" +:+ body))
    by (done || by apply langThenGroup_interior).
Qed.

Lemma extractJson_braces pre mid post :
  lacks "`" (pre +:+ "{" +:+ mid +:+ "}" +:+ post) = true ->
  lacks "{" pre = true ->
  lacks "}" post = true ->
  extractJson (pre +:+ "{" +:+ mid +:+ "}" +:+ post) = "{" +:+ mid +:+ "}".
Proof.
  intros Hall Hpre Hpost. unfold extractJson.
  rewrite matchCodeFence_none by done.
  set (s := pre +:+ "{" +:+ mid +:+ "}" +:+ post).
  assert (indexOf "{" s = Z.of_nat (String.length pre)) as ->.
  { by apply (indexOf_first "{" pre (mid +:+ "}" +:+ post)). }
  assert (lastIndexOf "}" s = Z.of_nat (String.length pre + S (String.length mid)))
    as ->.
  { subst s.
    replace (pre +:+ "{" +:+ mid +:+ "}" +:+ post)
      with ((pre +:+ "{" +:+ mid) +:+ String "}" post)
      by (by rewrite !app_assoc_s).
    rewrite lastIndexOf_last by done. by rewrite !length_app_s. }
  assert (slice (Z.of_nat (String.length pre))
            (Z.of_nat (String.length pre + S (String.length mid)) + 1) s
          = "{" +:+ mid +:+ "}") as ->.
  { pose proof (slice_middle pre ("{" +:+ mid +:+ "}") post) as HS.
    rewrite !length_app_s in HS. simpl String.length in HS.
    etrans; [|exact HS]. subst s.
    f_equal; first [lia | by rewrite ?app_assoc_s]. }
  destruct (Z.leb_spec 0 (Z.of_nat (String.length pre))); [|lia].
  destruct (Z.ltb_spec (Z.of_nat (String.length pre))
              (Z.of_nat (String.length pre + S (String.length mid)) + 1));
    [done|lia].
Qed.

End ParseFacts.

Section ParseClaims.
Import JS Parse.

(** C7. The text given to JSON.parse is the trimmed interior of the first
    fenced block when the response has one (after a run of text without a
    backquote: the fence, an optional "json" tag, white space, an interior
    that opens with a brace and has no backquote, the closing fence), and
    otherwise, when the response has no backquote, the slice from the
    first opening brace to the last closing brace. The fenced response
    "prose ```json\n{"summary":"s"}\n```" and the response
    "noise{"summary":"s"}trailing" both give {"summary":"s"}. *)
Theorem extractJson_fence_else_braces :
  (forall pre (lang : bool) ws body post,
      lacks "`" pre = true ->
      allSpace ws = true ->
      lacks "`" body = true ->
      extractJson (pre +:+ fence +:+ (if lang then "json" else "") +:+ ws
                   +:+ ("{" +:+ body) +:+ fence +:+ post)
      = trim ("{" +:+ body))
  /\ (forall pre mid post,
         lacks "`" (pre +:+ "{" +:+ mid +:+ "}" +:+ post) = true ->
         lacks "{" pre = true ->
         lacks "}" post = true ->
         extractJson (pre +:+ "{" +:+ mid +:+ "}" +:+ post)
         = "{" +:+ mid +:+ "}")
  /\ extractJson ("prose ```json" +:+ LF +:+ summary_s +:+ LF +:+ "```")
     = summary_s
  /\ extractJson ("noise" +:+ summary_s +:+ "trailing") = summary_s.
Proof.
  split; [|split; [|split]].
  - apply extractJson_fenced.
  - apply extractJson_braces.
  - reflexivity.
  - reflexivity.
Qed.

Lemma extractJson_fence_else_braces_witness :
  lacks "`" "prose " = true
  /\ allSpace LF = true
  /\ lacks "`" "}" = true
  /\ extractJson ("prose " +:+ fence +:+ "json" +:+ LF +:+ ("{" +:+ "}")
                  +:+ fence +:+ "")
     = trim ("{" +:+ "}").
Proof.
  split; [reflexivity|]. split; [reflexivity|]. split; [reflexivity|].
  apply (proj1 extractJson_fence_else_braces "prose " true LF "}" "");
    reflexivity.
Defined.



End ParseClaims.

(** ** The store under status writes *)

Section StoreFacts.
Import JS Parse Store Http.

Lemma videos_updateVideos d id st msg id' :
  videos (updateVideos id st msg d) !! id'
  = if decide (id = id') then applyUpdate st msg <$> videos d !! id'
    else videos d !! id'.
Proof.
  unfold updateVideos. simpl. rewrite lookup_alter.
  destruct (decide (id = id')); by subst.
Qed.

Lemma present_updateVideos d id st msg id' :
  is_Some (videos d !! id') ->
  is_Some (videos (updateVideos id st msg d) !! id').
Proof.
  intros [row H]. rewrite videos_updateVideos, H.
  destruct (decide (id = id')); eauto.
Qed.

Lemma present_upsertAnalysis d id a id' :
  is_Some (videos d !! id') ->
  is_Some (videos (upsertAnalysis id a d) !! id').
Proof. done. Qed.

Lemma statusOf_updateVideos d id st msg :
  is_Some (videos d !! id) ->
  statusOf (updateVideos id st msg d) id = Some st.
Proof.
  intros [row H]. unfold statusOf. rewrite videos_updateVideos.
  rewrite decide_True by done. by rewrite H.
Qed.

Lemma messageOf_updateVideos d id st m :
  is_Some (videos d !! id) ->
  messageOf (updateVideos id st (Some m) d) id = Some m.
Proof.
  intros [row H]. unfold messageOf. rewrite videos_updateVideos.
  rewrite decide_True by done. by rewrite H.
Qed.

Lemma messageOf_updateVideos_None d id st :
  messageOf (updateVideos id st None d) id = messageOf d id.
Proof.
  unfold messageOf. rewrite videos_updateVideos.
  rewrite decide_True by done. by destruct (videos d !! id).
Qed.

Lemma resolved_present (d : DB) id path :
  videos d !! id ≫= (fun v => nonEmpty (storage_path v)) = Some path ->
  is_Some (videos d !! id).
Proof. intros H. apply bind_Some in H as (row & H & _). eauto. Qed.

End StoreFacts.

(** ** The pipeline *)

Section PipelineClaims.
Import JS Parse Store Http Ends.

(** Every path of the handler. *)
Ltac handler_cases :=
  unfold Pipeline.serve, Pipeline.handler, Pipeline.upload, Pipeline.analyse,
    Pipeline.updateVideoStatus, bind, getVideo, writeStatus, writeAnalysis,
    respond, ret in *;
  simpl in *;
  repeat (case_match; simpl in *; simplify_eq; try done);
  simpl in *; simplify_eq.

(** The job is in the store after any status write and any upsert. *)
Ltac present :=
  repeat first [ apply present_updateVideos | apply present_upsertAnalysis ];
  eauto using resolved_present.

(** The handler lets no exception escape: it always answers. *)
Lemma serve_responds env req d :
  exists r, snd (Pipeline.serve env req d) = Respond r.
Proof. handler_cases; eauto. Qed.

Lemma resolve_Some env req d id path :
  resolve env req d = Some (id, path) ->
  req_method req = POST
  /\ readVideoId req = inr id
  /\ (exists key, nonEmpty (gemini_key env) = Some key)
  /\ videos d !! id ≫= (fun v => nonEmpty (storage_path v)) = Some path.
Proof.
  unfold resolve. intros H. repeat case_match; simplify_eq. eauto.
Qed.

Lemma resolve_None env req d :
  resolve env req d = None ->
  req_method req = OPTIONS
  \/ (exists bad, readVideoId req = inl bad)
  \/ nonEmpty (gemini_key env) = None
  \/ (exists id, readVideoId req = inr id
       /\ videos d !! id ≫= (fun v => nonEmpty (storage_path v)) = None).
Proof.
  unfold resolve. intros H. repeat case_match; simplify_eq; eauto 6.
Qed.

(** The handler from the [processing] write on, for a resolved job. *)
Lemma serve_resolved env req d id path :
  resolve env req d = Some (id, path) ->
  Pipeline.serve env req d
  = bind
      (match download env path with
       | None =>
           bind (Pipeline.updateVideoStatus id failed
                   (Some "Failed to download video"))
             (fun _ => respond (errorResponse 500
                                  "Failed to download video from storage"))
       | Some blob =>
           match (match upload_start env (blob_size blob) (mimeTypeOf blob)
                          ("vync_" +:+ path) with
                  | StartThrows => None
                  | StartHeaders url => nonEmpty url
                  end) with
           | None =>
               bind (Pipeline.updateVideoStatus id failed
                       (Some "Gemini upload initialization failed"))
                 (fun _ => respond (errorResponse 500
                                      "Gemini upload start failed"))
           | Some uploadUrl =>
               match (match upload_bytes env uploadUrl blob with
                      | UploadThrows | UploadNotOk _ => None
                      | UploadOk uri => nonEmpty uri
                      end) with
               | None =>
                   bind (Pipeline.updateVideoStatus id failed
                           (Some "Gemini file upload failed"))
                     (fun _ => respond (errorResponse 500
                                          "Gemini file upload failed"))
               | Some fileUri => ret (id, fileUri, mimeTypeOf blob)
               end
           end
       end)
      (Pipeline.analyse env)
      {| db := updateVideos id processing None d;
         writes := [processingWrite id] |}.
Proof.
  intros H. apply resolve_Some in H as (Hm & Hid & [key Hk] & Hjob).
  unfold Pipeline.serve, Pipeline.handler, Pipeline.upload.
  rewrite Hm, Hid, Hk.
  unfold bind at 1 2. unfold getVideo. cbn [db]. rewrite Hjob.
  unfold bind at 1 2 3. reflexivity.
Qed.

(** A resolved job gets the [processing] write and then one terminal
    write; the other rows are not touched. *)
Lemma resolved_run env req d id path :
  resolve env req d = Some (id, path) ->
  exists st msg,
    writes (fst (Pipeline.serve env req d))
    = [ processingWrite id;
        {| w_id := id; w_status := st; w_message := msg |} ]
    /\ terminal st = true
    /\ statusOf (db (fst (Pipeline.serve env req d))) id = Some st
    /\ forall id', id' <> id ->
         videos (db (fst (Pipeline.serve env req d))) !! id'
         = videos d !! id'.
Proof.
  intros Hres. apply resolve_Some in Hres as (Hm & Hid & [key Hk] & Hjob).
  unfold processingWrite.
  handler_cases.
  all: do 2 eexists; split; [reflexivity|];
    (split; [reflexivity|]);
    (split; [apply statusOf_updateVideos; present|]);
    intros id' Hne; by rewrite ?lookup_alter_ne by congruence.
Qed.

Lemma unresolved_run env req d :
  resolve env req d = None ->
  fst (Pipeline.serve env req d) = {| db := d; writes := [] |}.
Proof.
  intros Hres. apply resolve_None in Hres.
  destruct Hres as [H|[[bad H]|[H|(id & H & Hjob)]]]; handler_cases.
Qed.

Ltac failed_leaf :=
  cbn -[updateVideos upsertAnalysis]; repeat split;
  [ by apply statusOf_updateVideos, present_updateVideos
  | by apply messageOf_updateVideos, present_updateVideos ].

(** C3. Let an invocation resolve the job [id] with the storage path
    [path], so that it reaches the [processing] write. Then it answers,
    and either the response is the 200 one and the job is [completed], or
    the response is an error and the last write, issued before the
    response, is [failed] with one of the five short messages, which the
    store then holds: no path leaves the job in [processing]. And each
    failure of a later step ends the invocation with the job [failed], the
    short message of that step stored, and the error response of that
    step:
    - the download gives no blob: "Failed to download video", 500;
    - the upload negotiation throws or answers without an upload URL:
      "Gemini upload initialization failed", 500;
    - the upload transfer throws, is refused or answers without a file
      uri: "Gemini file upload failed", 500;
    - the generation throws, is refused or gives an empty text, JSON.parse
      rejects the extracted text, or the parsed value is null:
      "Gemini analysis failed", 502 with the message of the error as detail;
    - the store refuses the analysis: "Failed to save analysis", 500.
    When no step fails the job ends [completed] with the analysis stored. *)
Theorem failure_after_processing_is_recorded env req d id path :
  resolve env req d = Some (id, path) ->
  (exists r,
      snd (Pipeline.serve env req d) = Respond r
      /\ ((resp_status r = 200
           /\ writes (fst (Pipeline.serve env req d))
              = [ processingWrite id;
                  {| w_id := id; w_status := completed; w_message := None |} ]
           /\ statusOf (db (fst (Pipeline.serve env req d))) id
              = Some completed)
          \/ (resp_status r <> 200
              /\ exists msg,
                  In msg storedMessages
                  /\ writes (fst (Pipeline.serve env req d))
                     = [ processingWrite id; failedWrite id msg ]
                  /\ statusOf (db (fst (Pipeline.serve env req d))) id
                     = Some failed
                  /\ messageOf (db (fst (Pipeline.serve env req d))) id
                     = Some msg)))
  /\ (download env path = None ->
      endsFailed env req d id "Failed to download video"
        (errorResponse 500 "Failed to download video from storage"))
  /\ forall blob,
      download env path = Some blob ->
      (upload_start env (blob_size blob) (mimeTypeOf blob) ("vync_" +:+ path)
       = StartThrows ->
       endsFailed env req d id "Gemini upload initialization failed"
         (errorResponse 500 "Gemini upload start failed"))
      /\ forall u,
          upload_start env (blob_size blob) (mimeTypeOf blob) ("vync_" +:+ path)
          = StartHeaders u ->
          (nonEmpty u = None ->
           endsFailed env req d id "Gemini upload initialization failed"
             (errorResponse 500 "Gemini upload start failed"))
          /\ forall uploadUrl,
              nonEmpty u = Some uploadUrl ->
              ((upload_bytes env uploadUrl blob = UploadThrows
                \/ (exists errorText,
                      upload_bytes env uploadUrl blob = UploadNotOk errorText)
                \/ (exists f, upload_bytes env uploadUrl blob = UploadOk f
                              /\ nonEmpty f = None)) ->
               endsFailed env req d id "Gemini file upload failed"
                 (errorResponse 500 "Gemini file upload failed"))
              /\ forall f fileUri,
                  upload_bytes env uploadUrl blob = UploadOk f ->
                  nonEmpty f = Some fileUri ->
                  (forall m,
                      generate env fileUri (mimeTypeOf blob) = GenerateThrows m ->
                      endsFailed env req d id "Gemini analysis failed"
                        (errorDetailResponse 502 "Gemini analysis failed"
                           (JStr m)))
                  /\ (forall errText,
                         generate env fileUri (mimeTypeOf blob)
                         = GenerateNotOk errText ->
                         endsFailed env req d id "Gemini analysis failed"
                           (errorDetailResponse 502 "Gemini analysis failed"
                              (JStr ("Gemini generate failed: " +:+ errText))))
                  /\ forall t,
                      generate env fileUri (mimeTypeOf blob) = GenerateOk t ->
                      (trim (default "" t) = "" ->
                       endsFailed env req d id "Gemini analysis failed"
                         (errorDetailResponse 502 "Gemini analysis failed"
                            (JStr "Empty response from Gemini")))
                      /\ (trim (default "" t) <> "" ->
                          (forall m,
                              json_parse env (extractJson (trim (default "" t)))
                              = inl m ->
                              endsFailed env req d id "Gemini analysis failed"
                                (errorDetailResponse 502 "Gemini analysis failed"
                                   (JStr m)))
                          /\ forall parsed,
                              json_parse env (extractJson (trim (default "" t)))
                              = inr parsed ->
                              (forall m,
                                  readAnalysis parsed = inl m ->
                                  endsFailed env req d id "Gemini analysis failed"
                                    (errorDetailResponse 502
                                       "Gemini analysis failed" (JStr m)))
                              /\ (parsed = JNull ->
                                  endsFailed env req d id "Gemini analysis failed"
                                    (errorDetailResponse 502
                                       "Gemini analysis failed"
                                       (JStr "Cannot read properties of null (reading 'summary')")))
                              /\ forall a,
                                  readAnalysis parsed = inr a ->
                                  (forall m,
                                      upsert env id a = Some m ->
                                      endsFailed env req d id
                                        "Failed to save analysis"
                                        (errorDetailResponse 500
                                           "Failed to save analysis" (JStr m)))
                                  /\ (upsert env id a = None ->
                                      endsCompleted env req d id a)).
Proof.
  intros Hres. split.
  { apply resolve_Some in Hres as (Hm & Hid & [key Hk] & Hjob).
    unfold processingWrite, failedWrite.
    handler_cases; eexists; (split; [reflexivity|]).
    all: first
      [ left; split; [reflexivity|]; split; [reflexivity|];
        apply statusOf_updateVideos; present
      | right; split; [done|]; eexists; split; [|split; [reflexivity|]];
        [ simpl; tauto
        | split; [apply statusOf_updateVideos | apply messageOf_updateVideos];
          present ] ]. }
  pose proof (resolve_Some _ _ _ _ _ Hres) as (_ & _ & _ & Hjob).
  assert (is_Some (videos d !! id)) as Hin by eauto using resolved_present.
  unfold endsFailed, endsCompleted. rewrite (serve_resolved _ _ _ _ _ Hres).
  unfold Pipeline.analyse, Pipeline.generateAnalysis,
    Pipeline.updateVideoStatus, bind, writeStatus, writeAnalysis, respond, ret.
  split; [intros ->; failed_leaf|].
  intros blob ->. split; [intros ->; failed_leaf|].
  intros u ->. split; [intros ->; failed_leaf|].
  intros uploadUrl ->. split.
  { intros [->|[[e ->]|(f & -> & ->)]]; failed_leaf. }
  intros f fileUri -> ->. split; [intros m ->; failed_leaf|].
  split; [intros e ->; failed_leaf|].
  intros t ->. cbv zeta.
  replace (match t with Some x => x | None => "" end) with (default "" t)
    by (by destruct t).
  split; [intros ->; failed_leaf|].
  intros Hne. apply String.eqb_neq in Hne. rewrite Hne.
  split; [intros m ->; failed_leaf|].
  intros parsed ->. split; [intros m ->; failed_leaf|].
  split; [intros ->; failed_leaf|].
  intros a ->. split; [intros m ->; failed_leaf|].
  intros ->. cbn -[updateVideos upsertAnalysis]. repeat split.
  - apply statusOf_updateVideos. present.
  - unfold upsertAnalysis, updateVideos. cbn. apply lookup_insert_eq.
Qed.

Lemma failure_after_processing_is_recorded_witness :
  (resolve Examples.downloadFails (Examples.directCall "abc")
     (Examples.oneJob "abc" uploading) = Some ("abc", "clip.mp4")
   /\ download Examples.downloadFails "clip.mp4" = None
   /\ endsFailed Examples.downloadFails (Examples.directCall "abc")
        (Examples.oneJob "abc" uploading) "abc" "Failed to download video"
        (errorResponse 500 "Failed to download video from storage"))
  /\ (upload_start Examples.noUploadUrl (blob_size Examples.clip)
        (mimeTypeOf Examples.clip) ("vync_" +:+ "clip.mp4")
      = StartHeaders None
      /\ endsFailed Examples.noUploadUrl (Examples.directCall "abc")
           (Examples.oneJob "abc" uploading) "abc"
           "Gemini upload initialization failed"
           (errorResponse 500 "Gemini upload start failed"))
  /\ (upsert saveFails "abc"
        {| summary := "s"; thought_trace := []; chapters := [];
           key_insights := []; timeline_data := []; diagram_data := [] |}
      = Some "permission denied for table video_analyses"
      /\ endsFailed saveFails (Examples.directCall "abc")
           (Examples.oneJob "abc" uploading) "abc" "Failed to save analysis"
           (errorDetailResponse 500 "Failed to save analysis"
              (JStr "permission denied for table video_analyses"))).
Proof.
  split; [|split].
  - split; [reflexivity|]. split; [reflexivity|].
    apply (proj1 (proj2 (failure_after_processing_is_recorded
                           Examples.downloadFails (Examples.directCall "abc")
                           (Examples.oneJob "abc" uploading) "abc" "clip.mp4"
                           eq_refl))).
    reflexivity.
  - split; [reflexivity|].
    destruct (failure_after_processing_is_recorded
                Examples.noUploadUrl (Examples.directCall "abc")
                (Examples.oneJob "abc" uploading) "abc" "clip.mp4" eq_refl)
      as (_ & _ & H).
    destruct (H Examples.clip eq_refl) as [_ H1].
    destruct (H1 None eq_refl) as [H2 _].
    exact (H2 eq_refl).
  - split; [reflexivity|].
    destruct (failure_after_processing_is_recorded
                saveFails (Examples.directCall "abc")
                (Examples.oneJob "abc" uploading) "abc" "clip.mp4" eq_refl)
      as (_ & _ & H).
    destruct (H Examples.clip eq_refl) as [_ H1].
    destruct (H1 (Some "https://upload.example/1") eq_refl) as [_ H2].
    destruct (H2 "https://upload.example/1" eq_refl) as [_ H3].
    destruct (H3 (Some "files/1") "files/1" eq_refl eq_refl) as (_ & _ & H4).
    destruct (H4 (Some summary_s) eq_refl) as [_ H5].
    assert (trim (default "" (Some summary_s)) <> "") as Hne
      by (vm_compute; discriminate).
    destruct (H5 Hne) as [_ H6].
    destruct (H6 (JObj [("summary", JStr "s")]) eq_refl) as (_ & _ & H7).
    destruct (H7 _ eq_refl) as [H8 _].
    exact (H8 _ eq_refl).
Defined.

(** C10, as the code has it. A POST whose body names an id that the store
    has no job for, or whose job has no storage path, writes nothing: the
    store after the invocation is the store before it and no status write
    is issued. The response is the 404 one when the GEMINI_API_KEY secret
    is configured, and the 500 one of the missing secret otherwise. *)
Theorem unknown_job_is_404_without_write env req d id :
  req_method req = POST ->
  readVideoId req = inr id ->
  (videos d !! id = None
   \/ exists row, videos d !! id = Some row
                  /\ nonEmpty (storage_path row) = None) ->
  fst (Pipeline.serve env req d) = {| db := d; writes := [] |}
  /\ (nonEmpty (gemini_key env) <> None ->
      snd (Pipeline.serve env req d)
      = Respond (errorResponse 404 "Video not found or no storage_path"))
  /\ (nonEmpty (gemini_key env) = None ->
      snd (Pipeline.serve env req d)
      = Respond (errorResponse 500 "GEMINI_API_KEY not configured")).
Proof.
  intros Hm Hid Hjob.
  assert (videos d !! id ≫= (fun v => nonEmpty (storage_path v)) = None) as Hn.
  { destruct Hjob as [->|(row & -> & Hp)]; [done|]. simpl. by rewrite Hp. }
  unfold Pipeline.serve, Pipeline.handler, Pipeline.upload, bind, getVideo,
    respond.
  rewrite Hm, Hid. destruct (nonEmpty (gemini_key env)); simpl.
  - rewrite Hn. done.
  - done.
Qed.

Lemma unknown_job_is_404_without_write_witness :
  req_method (Examples.directCall "abc") = POST
  /\ readVideoId (Examples.directCall "abc") = inr "abc"
  /\ videos Examples.noJobs !! "abc" = None
  /\ nonEmpty (gemini_key Examples.allWell) <> None
  /\ fst (Pipeline.serve Examples.allWell (Examples.directCall "abc")
            Examples.noJobs)
     = {| db := Examples.noJobs; writes := [] |}
  /\ snd (Pipeline.serve Examples.allWell (Examples.directCall "abc")
            Examples.noJobs)
     = Respond (errorResponse 404 "Video not found or no storage_path").
Proof.
  split; [reflexivity|]. split; [reflexivity|]. split; [reflexivity|].
  split; [discriminate|].
  pose proof (unknown_job_is_404_without_write Examples.allWell
                (Examples.directCall "abc") Examples.noJobs "abc"
                eq_refl eq_refl (or_introl eq_refl)) as (H1 & H2 & _).
  split; [exact H1 | apply H2; discriminate].
Defined.

(** C10 fails: the store has no job "abc" and the secret GEMINI_API_KEY is
    not configured. The handler tests the secret before it reads the job,
    so the response is the 500 one of the missing secret, not the 404
    one. No write is issued. *)
Lemma unknown_job_without_secret_is_500 :
  readVideoId (Examples.directCall "abc") = inr "abc"
  /\ videos Examples.noJobs !! "abc" = None
  /\ Pipeline.serve noSecret (Examples.directCall "abc") Examples.noJobs
     = ({| db := Examples.noJobs; writes := [] |},
        Respond (errorResponse 500 "GEMINI_API_KEY not configured"))
  /\ errorResponse 500 "GEMINI_API_KEY not configured"
     <> errorResponse 404 "Video not found or no storage_path".
Proof. repeat split; try reflexivity. discriminate. Qed.

(** C1, as the code has it. An invocation that resolves its job writes
    [processing] to it first, whatever the status of the job was, also
    [completed] or [failed], and then one terminal status: the job is
    [completed] or [failed] when the invocation ends, and the rows of the
    other jobs are as before. An invocation that resolves no job writes
    nothing and leaves the store as it was. *)
Theorem invocation_ends_terminal env req d :
  (forall id path,
      resolve env req d = Some (id, path) ->
      statusOf (updateVideos id processing None d) id = Some processing
      /\ exists st msg,
          writes (fst (Pipeline.serve env req d))
          = [ processingWrite id;
              {| w_id := id; w_status := st; w_message := msg |} ]
          /\ terminal st = true
          /\ statusOf (db (fst (Pipeline.serve env req d))) id = Some st
          /\ forall id', id' <> id ->
               videos (db (fst (Pipeline.serve env req d))) !! id'
               = videos d !! id')
  /\ (resolve env req d = None ->
      fst (Pipeline.serve env req d) = {| db := d; writes := [] |}).
Proof.
  split; [|apply unresolved_run].
  intros id path Hres. split; [|by eapply resolved_run].
  apply resolve_Some in Hres as (_ & _ & _ & Hjob).
  apply statusOf_updateVideos. eauto using resolved_present.
Qed.

Lemma invocation_ends_terminal_witness :
  resolve Examples.downloadFails (Examples.directCall "abc")
    (Examples.oneJob "abc" completed) = Some ("abc", "clip.mp4")
  /\ statusOf (updateVideos "abc" processing None
                 (Examples.oneJob "abc" completed)) "abc" = Some processing
  /\ exists st msg,
      writes (fst (Pipeline.serve Examples.downloadFails
                     (Examples.directCall "abc")
                     (Examples.oneJob "abc" completed)))
      = [ processingWrite "abc";
          {| w_id := "abc"; w_status := st; w_message := msg |} ]
      /\ terminal st = true
      /\ statusOf (db (fst (Pipeline.serve Examples.downloadFails
                              (Examples.directCall "abc")
                              (Examples.oneJob "abc" completed)))) "abc"
         = Some st
      /\ forall id', id' <> "abc" ->
           videos (db (fst (Pipeline.serve Examples.downloadFails
                              (Examples.directCall "abc")
                              (Examples.oneJob "abc" completed)))) !! id'
           = videos (Examples.oneJob "abc" completed) !! id'.
Proof.
  split; [reflexivity|].
  apply (proj1 (invocation_ends_terminal Examples.downloadFails
                  (Examples.directCall "abc")
                  (Examples.oneJob "abc" completed)) "abc" "clip.mp4").
  reflexivity.
Defined.

(** C1 fails: the job "abc" is [completed]; the webhook is delivered again
    while the storage download fails. The invocation writes [processing]
    over [completed], and the job ends [failed]. *)
Lemma reinvocation_rewrites_completed_job :
  statusOf (Examples.oneJob "abc" completed) "abc" = Some completed
  /\ writes (fst (Pipeline.serve Examples.downloadFails
                    (Examples.directCall "abc")
                    (Examples.oneJob "abc" completed)))
     = [ processingWrite "abc"; failedWrite "abc" "Failed to download video" ]
  /\ statusOf (updateVideos "abc" processing None
                 (Examples.oneJob "abc" completed)) "abc"
     = Some processing
  /\ statusOf (db (fst (Pipeline.serve Examples.downloadFails
                          (Examples.directCall "abc")
                          (Examples.oneJob "abc" completed)))) "abc"
     = Some failed.
Proof. repeat split; reflexivity. Qed.

(** C5, as the code has it. From "Step 4" on, for a job that is in the
    store: when the generation or the parsing fails with message [msg], the
    function with [updateVideoStatus] stores [failed] with the message
    "Gemini analysis failed" and answers 502 with [msg] as the detail; for a
    response that JSON.parse rejects, [msg] is the message of JSON.parse.
    On the same rejected response the earlier function answers 502 with a
    detail that holds [rawPreview], the first 500 characters of the
    response, and stores [failed] without touching the message of the
    job. *)
Theorem analysis_failure_reporting env id fileUri mimeType w :
  is_Some (videos (db w) !! id) ->
  (forall msg,
      Pipeline.generateAnalysis env fileUri mimeType = inl msg ->
      snd (Pipeline.analyse env (id, fileUri, mimeType) w)
      = Respond (errorDetailResponse 502 "Gemini analysis failed" (JStr msg))
      /\ statusOf (db (fst (Pipeline.analyse env (id, fileUri, mimeType) w))) id
         = Some failed
      /\ messageOf (db (fst (Pipeline.analyse env (id, fileUri, mimeType) w))) id
         = Some "Gemini analysis failed")
  /\ (forall text errMsg,
         generate env fileUri mimeType = GenerateOk (Some text) ->
         trim text <> "" ->
         json_parse env (extractJson (trim text)) = inl errMsg ->
         Pipeline.generateAnalysis env fileUri mimeType = inl errMsg
         /\ snd (Trigger.analyse env (id, fileUri, mimeType) w)
            = Respond (errorDetailResponse 502 "Invalid JSON from Gemini"
                         (Trigger.structured errMsg (trim text)))
         /\ getProp "rawPreview" (Trigger.structured errMsg (trim text))
            = Some (JStr (slice 0 500 (trim text)))
         /\ statusOf (db (fst (Trigger.analyse env (id, fileUri, mimeType) w))) id
            = Some failed
         /\ messageOf (db (fst (Trigger.analyse env (id, fileUri, mimeType) w))) id
            = messageOf (db w) id).
Proof.
  intros Hjob. split.
  - intros msg Hg. unfold Pipeline.analyse, Pipeline.updateVideoStatus, bind,
      writeStatus, respond. rewrite Hg. simpl.
    split; [done|]. split.
    + by apply statusOf_updateVideos.
    + by apply messageOf_updateVideos.
  - intros text errMsg Hgen Hne Hparse.
    apply String.eqb_neq in Hne.
    split.
    { unfold Pipeline.generateAnalysis. rewrite Hgen, Hne. by rewrite Hparse. }
    unfold Trigger.analyse, Trigger.markFailed, bind, writeStatus, respond.
    rewrite Hgen, Hne, Hparse. simpl.
    split; [done|]. split; [done|]. split.
    + by apply statusOf_updateVideos.
    + apply messageOf_updateVideos_None.
Qed.

Lemma analysis_failure_reporting_witness :
  is_Some (videos (Examples.oneJob Examples.jobId processing) !! Examples.jobId)
  /\ Pipeline.generateAnalysis Examples.unparseable "files/1" "video/mp4"
     = inl "Unexpected end of JSON input"
  /\ snd (Pipeline.analyse Examples.unparseable
            (Examples.jobId, "files/1", "video/mp4")
            {| db := Examples.oneJob Examples.jobId processing; writes := [] |})
     = Respond (errorDetailResponse 502 "Gemini analysis failed"
                  (JStr "Unexpected end of JSON input")).
Proof.
  split; [by eexists|]. split; [reflexivity|].
  apply (proj1 (analysis_failure_reporting Examples.unparseable Examples.jobId
                  "files/1" "video/mp4"
                  {| db := Examples.oneJob Examples.jobId processing;
                     writes := [] |}
                  (ex_intro _ (Examples.job processing) eq_refl))
           "Unexpected end of JSON input" eq_refl).
Defined.

(** C5 fails on either function. The inference text is an empty fenced
    block, which JSON.parse rejects with "Unexpected end of JSON input".
    The function with [updateVideoStatus] stores the short message but the
    detail of its response is the message of JSON.parse alone, with nothing
    of the raw text; the earlier function reports the raw text in
    [rawPreview] but stores no message on the job. *)
Lemma no_function_stores_message_and_previews :
  (messageOf (db (fst (Pipeline.serve Examples.unparseable
                         (Examples.directCall Examples.jobId)
                         (Examples.oneJob Examples.jobId processing))))
     Examples.jobId
   = Some "Gemini analysis failed"
   /\ snd (Pipeline.serve Examples.unparseable
             (Examples.directCall Examples.jobId)
             (Examples.oneJob Examples.jobId processing))
      = Respond (errorDetailResponse 502 "Gemini analysis failed"
                   (JStr "Unexpected end of JSON input"))
   /\ includes "`" "Unexpected end of JSON input" = false)
  /\ (messageOf (db (fst (Trigger.serve Examples.unparseable
                            (Examples.directCall Examples.jobId)
                            (Examples.oneJob Examples.jobId processing))))
        Examples.jobId
      = None
      /\ statusOf (db (fst (Trigger.serve Examples.unparseable
                              (Examples.directCall Examples.jobId)
                              (Examples.oneJob Examples.jobId processing))))
           Examples.jobId
         = Some failed
      /\ snd (Trigger.serve Examples.unparseable
                (Examples.directCall Examples.jobId)
                (Examples.oneJob Examples.jobId processing))
         = Respond (errorDetailResponse 502 "Invalid JSON from Gemini"
                      (JObj [("error", JStr "Gemini response is not valid JSON");
                             ("parseError", JStr "Unexpected end of JSON input");
                             ("rawLength", JNum "6");
                             ("rawPreview", JStr Examples.emptyFence)]))).
Proof. repeat split; reflexivity. Qed.

End PipelineClaims.

(** ** The client *)

Section ClientClaims.
Import JS Sync.

Variable JSON_parse : string -> string + json.

Local Abbreviation rowToPayload := (Sync.rowToPayload JSON_parse).
Local Abbreviation step := (Sync.step JSON_parse).
Local Abbreviation fetchOnce := (Sync.fetchOnce JSON_parse).
Local Abbreviation pollChain := (Sync.pollChain JSON_parse).

Lemma nonEmpty_fixed o v :
  Sync.nonEmpty o = Some v -> Sync.nonEmpty (Some v) = Some v.
Proof. destruct o as [[|c o]|]; simpl; intros H; by simplify_eq. Qed.

(** C2, as the code has it. A delivery that yields a payload, by a change
    event on [video_analyses] or by the pull of a poll tick that has not
    timed out, sets the view to ready with that payload, whatever the view
    was before: a later delivery replaces the payload of an earlier one.
    The delivery leaves both subscriptions as they were; the cleanup of the
    effect removes them and clears the timers. *)
Theorem delivery_sets_ready s row p :
  rowToPayload (Some row) = Some p ->
  (channelAnalysis s = true ->
   render (step s (AnalysisChange row)) = Ready p (fallbackVideoId s)
   /\ loading (step s (AnalysisChange row)) = false
   /\ error (step s (AnalysisChange row)) = None
   /\ channelAnalysis (step s (AnalysisChange row)) = true
   /\ channelVideo (step s (AnalysisChange row)) = channelVideo s)
  /\ (forall now a,
         pollRef s = true ->
         now - pollStartTime s <= MAX_POLL_TIMEOUT_MS ->
         analysisOfJob a = QueryData (Some row) ->
         render (step s (Interval now a)) = Ready p (fallbackVideoId s)
         /\ loading (step s (Interval now a)) = false
         /\ error (step s (Interval now a)) = None
         /\ channelAnalysis (step s (Interval now a)) = channelAnalysis s
         /\ channelVideo (step s (Interval now a)) = channelVideo s)
  /\ live (step s Cleanup) = (false, false, false, false).
Proof.
  intros Hp. split; [|split]; [| |done].
  - intros Hc. simpl. rewrite Hc. unfold onAnalysisChange. rewrite Hp.
    by unfold render.
  - intros now a Hpoll Hnow Ha. simpl. rewrite Hpoll. unfold runPoll.
    destruct (Z.ltb_spec MAX_POLL_TIMEOUT_MS (now - pollStartTime s)); [lia|].
    unfold Sync.pollChain, Sync.fetchOnce. rewrite Ha, Hp. by unfold render.
Qed.


(** C6, as the code has it. The poll tick that finds more than
    MAX_POLL_TIMEOUT_MS elapsed since the effect started clears the poll
    interval, sets the timeout error and clears [loading], without a
    query; a view without payload and without failed status then renders
    the timeout error. No interval tick does anything afterwards. The two
    subscriptions are as before the tick: the timeout does not stop
    them. *)
Theorem timeout_stops_the_interval s now a :
  pollRef s = true ->
  MAX_POLL_TIMEOUT_MS < now - pollStartTime s ->
  error (step s (Interval now a)) = Some TIMEOUT_MESSAGE
  /\ loading (step s (Interval now a)) = false
  /\ internalPayload (step s (Interval now a)) = internalPayload s
  /\ live (step s (Interval now a))
     = (false, earlyPollTimer s, channelAnalysis s, channelVideo s)
  /\ (internalPayload s = None -> isFailed (videoStatus s) = false ->
      render (step s (Interval now a)) = Error TIMEOUT_MESSAGE)
  /\ (forall now' a',
         step (step s (Interval now a)) (Interval now' a')
         = step s (Interval now a)).
Proof.
  intros Hpoll Hlate. simpl. rewrite Hpoll. unfold runPoll.
  destruct (Z.ltb_spec MAX_POLL_TIMEOUT_MS (now - pollStartTime s)); [|lia].
  repeat split; try done.
  intros Hp Hs. unfold render. simpl. by rewrite Hp, Hs.
Qed.

(** C9, as the code has it. Within a poll, and within the first fetch of
    the effect, the query for the latest row is consulted only when the
    pull for the requested id gave no payload: when it gave one, the chain
    ends the same whatever the latest row is and the tag is left alone. When the pull gave none and the latest row has a
    payload and a video id, the poll adopts that payload and sets the tag
    to the owner of the row, which the view shows beside the payload; it
    does so whatever the view was, a ready view included. *)
Theorem fallback_after_empty_pull s a :
  (forall a',
      analysisOfJob a' = analysisOfJob a ->
      snd (fetchOnce false (analysisOfJob a) s) <> None ->
      pollChain a' s = pollChain a s
      /\ fallbackVideoId (pollChain a s) = fallbackVideoId s)
  /\ (forall a',
         analysisOfJob a' = analysisOfJob a ->
         snd (fetchOnce true (analysisOfJob a) s) <> None ->
         Sync.firstFetchChain JSON_parse a' s = Sync.firstFetchChain JSON_parse a s
         /\ fallbackVideoId (Sync.firstFetchChain JSON_parse a s)
            = fallbackVideoId s)
  /\ (forall row p owner,
         snd (fetchOnce false (analysisOfJob a) s) = None ->
         latestAnalysis a = QueryData (Some row) ->
         rowToPayload (Some row) = Some p ->
         Sync.nonEmpty (video_id row) = Some owner ->
         internalPayload (pollChain a s) = Some p
         /\ fallbackVideoId (pollChain a s) = Some owner
         /\ render (pollChain a s) = Ready p (Some owner)).
Proof.
  split; [|split].
  - intros a' Ha Hsome. unfold Sync.pollChain. rewrite Ha.
    destruct (fetchOnce false (analysisOfJob a) s) as [s1 [p|]] eqn:Hf;
      [|done].
    split; [done|].
    unfold Sync.fetchOnce in Hf. destruct (analysisOfJob a); by simplify_eq.
  - intros a' Ha Hsome. unfold Sync.firstFetchChain. rewrite Ha.
    destruct (fetchOnce true (analysisOfJob a) s) as [s1 [p|]] eqn:Hf;
      [|done].
    split; [done|].
    unfold Sync.fetchOnce in Hf. destruct (analysisOfJob a); by simplify_eq.
  - intros row p owner Hnone Hl Hp Ho. unfold Sync.pollChain.
    destruct (fetchOnce false (analysisOfJob a) s) as [s1 o] eqn:Hf.
    simpl in Hnone. subst o.
    unfold Sync.fetchLatestAnalysis. rewrite Hl, Hp, Ho.
    unfold applyResult, render.
    rewrite (nonEmpty_fixed _ _ Ho). done.
Qed.

End ClientClaims.

(** *** On concrete runs *)

Section ClientRuns.
Import JS Sync Examples.

Lemma delivery_sets_ready_witness :
  rowToPayload parseExample (Some (analysisRow jobId "first"))
  = Some (payloadWith "first")
  /\ channelAnalysis (mount 0) = true
  /\ render (step parseExample (mount 0)
               (AnalysisChange (analysisRow jobId "first")))
     = Ready (payloadWith "first") None
  /\ channelAnalysis (step parseExample (mount 0)
                        (AnalysisChange (analysisRow jobId "first")))
     = true.
Proof.
  split; [reflexivity|]. split; [reflexivity|].
  pose proof (proj1 (delivery_sets_ready parseExample (mount 0)
                       (analysisRow jobId "first") (payloadWith "first")
                       eq_refl) eq_refl) as (H1 & _ & _ & H4 & _).
  split; [exact H1 | exact H4].
Defined.

(** C2 fails: the insert event makes the view ready, and the poll
    interval, the early timer and both subscriptions are still there; the
    update event that follows for the same job is not ignored, its payload
    replaces the one shown; and so does the payload of the next poll. *)
Lemma ready_keeps_polling_and_is_replaced :
  render firstDelivered = Ready (payloadWith "first") None
  /\ live firstDelivered = (true, true, true, true)
  /\ render (step parseExample firstDelivered
               (AnalysisChange (analysisRow jobId "second")))
     = Ready (payloadWith "second") None
  /\ render (step parseExample firstDelivered (Interval 3000 (found "third")))
     = Ready (payloadWith "third") None.
Proof. repeat split; reflexivity. Qed.



Lemma timeout_stops_the_interval_witness :
  pollRef stillWaiting = true
  /\ MAX_POLL_TIMEOUT_MS < 303000 - pollStartTime stillWaiting
  /\ error timedOut = Some TIMEOUT_MESSAGE
  /\ live timedOut = (false, false, true, true).
Proof.
  split; [reflexivity|]. split; [reflexivity|].
  pose proof (timeout_stops_the_interval parseExample stillWaiting 303000
                nothingYet eq_refl eq_refl) as (H1 & _ & _ & H4 & _).
  split; [exact H1 | exact H4].
Defined.

(** C6 fails: after five quiet minutes the tick at 303 s renders the
    timeout error and clears the interval, but both subscriptions stay:
    the insert event that arrives afterwards runs its callback and turns
    the view to ready. *)
Lemma push_fires_after_timeout :
  render stillWaiting = Pending
  /\ render timedOut = Error TIMEOUT_MESSAGE
  /\ channelAnalysis timedOut = true
  /\ channelVideo timedOut = true
  /\ render (step parseExample timedOut
               (AnalysisChange (analysisRow jobId "first")))
     = Ready (payloadWith "first") None.
Proof. repeat split; reflexivity. Qed.

Lemma fallback_after_empty_pull_witness :
  snd (fetchOnce parseExample false (analysisOfJob otherJobIsLatest) (mount 0))
  = None
  /\ latestAnalysis otherJobIsLatest
     = QueryData (Some (analysisRow "other-job" "other"))
  /\ render (pollChain parseExample otherJobIsLatest (mount 0))
     = Ready (payloadWith "other") (Some "other-job").
Proof.
  split; [reflexivity|]. split; [reflexivity|].
  apply (proj2 (proj2 (fallback_after_empty_pull parseExample (mount 0)
                         otherJobIsLatest))
           (analysisRow "other-job" "other") (payloadWith "other") "other-job");
    reflexivity.
Defined.

(** C9 fails: the view is ready with the record of the requested job; on
    the next tick the query for the job throws, the latest row of the table
    belongs to another job, and the view shows that other record. *)
Lemma fallback_overrides_ready :
  render firstDelivered = Ready (payloadWith "first") None
  /\ render (step parseExample firstDelivered (Interval 3000 otherJobIsLatest))
     = Ready (payloadWith "other") (Some "other-job").
Proof. repeat split; reflexivity. Qed.

End ClientRuns.

(* ------------------------------------------------------------------ *)
(** * Further properties of the code *)

(** ** The entry of the edge function *)

Section EntryFacts.
Import JS Parse Store Http Stored.

Lemma trimEnd_fixed s : trimEnd (trimEnd s) = trimEnd s.
Proof.
  induction s as [|c s IH]; [done|]. simpl.
  destruct (trimEnd s) as [|d t] eqn:Ht.
  - destruct (isSpace c) eqn:Hc; [done|]. simpl. by rewrite Hc.
  - change (trimEnd (String c (String d t)) = String c (String d t)).
    change (trimEnd (String c (String d t)))
      with (match trimEnd (String d t) with
            | EmptyString =>
                if isSpace c then EmptyString else String c EmptyString
            | u => String c u
            end).
    by rewrite IH.
Qed.

Lemma trimStart_opensClean s : opensClean (trimStart s) = true.
Proof.
  induction s as [|c s IH]; [done|]. simpl.
  destruct (isSpace c) eqn:Hc; [done|]. simpl. by rewrite Hc.
Qed.

Lemma trimStart_clean s : opensClean s = true -> trimStart s = s.
Proof.
  destruct s as [|c s]; [done|]. simpl. intros H.
  apply negb_true_iff in H. by rewrite H.
Qed.

Lemma trimEnd_opensClean s : opensClean s = true -> opensClean (trimEnd s) = true.
Proof.
  destruct s as [|c s]; [done|]. simpl. intros H.
  destruct (trimEnd s); [|done].
  apply negb_true_iff in H. rewrite H. simpl. by rewrite H.
Qed.

Lemma trim_fixed s : trim (trim s) = trim s.
Proof.
  unfold trim.
  rewrite (trimStart_clean (trimEnd (trimStart s)))
    by apply trimEnd_opensClean, trimStart_opensClean.
  apply trimEnd_fixed.
Qed.

Lemma readVideoId_400 req bad :
  readVideoId req = inl bad -> resp_status bad = 400.
Proof.
  unfold readVideoId. intros Hbad. repeat case_match; by simplify_eq.
Qed.

(** X1. A POST whose body gives no job id (it is not JSON, not an object,
    or has neither a record id nor a video_id) is answered with 400 by both
    versions of the function, whatever the services would answer, and the
    store is left as it was, without any status write. *)
Theorem bad_request_touches_nothing env req d bad :
  req_method req = POST ->
  readVideoId req = inl bad ->
  resp_status bad = 400
  /\ Pipeline.serve env req d = ({| db := d; writes := [] |}, Respond bad)
  /\ Trigger.serve env req d = ({| db := d; writes := [] |}, Respond bad).
Proof.
  intros Hm Hbad. split.
  - by apply (readVideoId_400 req).
  - unfold Pipeline.serve, Pipeline.handler, Pipeline.upload,
      Trigger.serve, Trigger.handler, Trigger.upload, bind, respond.
    by rewrite Hm, Hbad.
Qed.

Lemma bad_request_touches_nothing_witness :
  req_method Stored.notJson = POST
  /\ readVideoId Stored.notJson = inl (errorResponse 400 "Invalid JSON body")
  /\ Pipeline.serve Examples.allWell Stored.notJson
       (Examples.oneJob "abc" uploading)
     = ({| db := Examples.oneJob "abc" uploading; writes := [] |},
        Respond (errorResponse 400 "Invalid JSON body")).
Proof.
  split; [reflexivity|]. split; [reflexivity|].
  apply (bad_request_touches_nothing Examples.allWell Stored.notJson
           (Examples.oneJob "abc" uploading)
           (errorResponse 400 "Invalid JSON body") eq_refl eq_refl).
Defined.

(** X2. The job id the function works with never has white space around
    it: trimming it again changes nothing. *)
Theorem job_id_is_trimmed req id :
  readVideoId req = inr id -> trim id = id.
Proof.
  unfold readVideoId. intros H.
  repeat case_match; simplify_eq; apply trim_fixed.
Qed.

Lemma job_id_is_trimmed_witness :
  readVideoId (Examples.directCall "  abc ") = inr "abc"
  /\ trim "abc" = "abc".
Proof.
  split; [reflexivity|].
  apply (job_id_is_trimmed (Examples.directCall "  abc ") "abc" eq_refl).
Defined.

End EntryFacts.

(** ** The store after an invocation *)

Section RunFacts.
Import JS Parse Store Http.

Lemma updateVideos_absorb_message d id st m st' msg' :
  updateVideos id st (Some m) (updateVideos id st' msg' d)
  = updateVideos id st (Some m) d.
Proof.
  unfold updateVideos. simpl. f_equal.
  rewrite alter_alter_eq. by apply alter_ext.
Qed.

Lemma updateVideos_absorb_status d id st st' :
  updateVideos id st None (updateVideos id st' None d)
  = updateVideos id st None d.
Proof.
  unfold updateVideos. simpl. f_equal.
  rewrite alter_alter_eq. by apply alter_ext.
Qed.

Lemma updateVideos_upsertAnalysis d id st msg id' a :
  updateVideos id st msg (upsertAnalysis id' a d)
  = upsertAnalysis id' a (updateVideos id st msg d).
Proof. done. Qed.

Lemma upsertAnalysis_twice d id a :
  upsertAnalysis id a (upsertAnalysis id a d) = upsertAnalysis id a d.
Proof.
  unfold upsertAnalysis. simpl. f_equal. apply insert_insert_eq.
Qed.

(** The storage path of a job is the same after any status write and any
    upsert. *)
Lemma resolve_updateVideos d id st msg id' :
  videos (updateVideos id st msg d) !! id'
    ≫= (fun v => nonEmpty (storage_path v))
  = videos d !! id' ≫= (fun v => nonEmpty (storage_path v)).
Proof.
  rewrite videos_updateVideos. destruct (decide (id = id')); [|done].
  by destruct (videos d !! id').
Qed.

Lemma resolve_upsertAnalysis d id a id' :
  videos (upsertAnalysis id a d) !! id'
    ≫= (fun v => nonEmpty (storage_path v))
  = videos d !! id' ≫= (fun v => nonEmpty (storage_path v)).
Proof. done. Qed.

Ltac still_present :=
  repeat first [ apply present_updateVideos | apply present_upsertAnalysis ];
  eauto using resolved_present.

(** The paths of the handler, with the writes kept folded. *)
Ltac run_cases :=
  unfold Pipeline.serve, Pipeline.handler, Pipeline.upload, Pipeline.analyse,
    Pipeline.updateVideoStatus, bind, getVideo, writeStatus, writeAnalysis,
    respond, ret in *;
  cbn -[updateVideos upsertAnalysis] in *;
  repeat (case_match; cbn -[updateVideos upsertAnalysis] in *;
          simplify_eq; try done);
  cbn -[updateVideos upsertAnalysis] in *; simplify_eq.

(** X3. Delivering the same request again on the store the first
    invocation left, with the services answering as before, ends exactly
    as the first invocation did: the same status writes, the same response
    and the same store. *)
Theorem rerun_changes_nothing env req d :
  Pipeline.serve env req (db (fst (Pipeline.serve env req d)))
  = Pipeline.serve env req d.
Proof.
  unfold Pipeline.serve, Pipeline.handler, Pipeline.upload, bind, getVideo,
    respond.
  destruct (req_method req); [done|].
  destruct (readVideoId req) as [bad|id]; [done|].
  destruct (nonEmpty (gemini_key env)) as [key|]; [|done].
  cbn -[updateVideos upsertAnalysis].
  destruct (videos d !! id ≫= (fun v => nonEmpty (storage_path v)))
    as [path|] eqn:Hres.
  2: { cbn. by rewrite Hres. }
  unfold Pipeline.analyse, Pipeline.updateVideoStatus, bind, writeStatus,
    writeAnalysis, respond, ret.
  repeat first
    [ rewrite resolve_updateVideos | rewrite resolve_upsertAnalysis
    | rewrite Hres
    | progress cbn -[updateVideos upsertAnalysis]
    | match goal with
      | H : ?x = _ |- context [match ?x with _ => _ end] => rewrite H
      | |- context [match download env ?p with _ => _ end] =>
          destruct (download env p) eqn:?
      | |- context [match upload_start env ?a ?b ?c with _ => _ end] =>
          destruct (upload_start env a b c) eqn:?
      | |- context [match upload_bytes env ?a ?b with _ => _ end] =>
          destruct (upload_bytes env a b) eqn:?
      | |- context [match Pipeline.generateAnalysis env ?a ?b with _ => _ end] =>
          destruct (Pipeline.generateAnalysis env a b) eqn:?
      | |- context [match upsert env ?a ?b with _ => _ end] =>
          destruct (upsert env a b) eqn:?
      | |- context [match nonEmpty ?u with _ => _ end] =>
          is_var u; destruct (nonEmpty u) eqn:?
      | |- context [if String.eqb (blob_type ?b) ?e then _ else _] =>
          destruct (String.eqb (blob_type b) e) eqn:?
      end ].
  all: repeat first
    [ rewrite updateVideos_upsertAnalysis
    | rewrite updateVideos_absorb_message
    | rewrite updateVideos_absorb_status
    | rewrite upsertAnalysis_twice ].
  all: reflexivity.
Qed.

(** X4. The analysis table changes only on the path that answers 200 to
    a POST: there the row of the job is the analysis read from the
    inference response (replacing an earlier row of the job) and the job
    is [completed]. On every other path the table is as it was, and the
    response is not 200 unless the request is an OPTIONS preflight. No
    partial analysis is ever stored. *)
Theorem analysis_saved_only_on_success env req d :
  (exists id fileUri mimeType a,
      readVideoId req = inr id
      /\ Pipeline.generateAnalysis env fileUri mimeType = inr a
      /\ snd (Pipeline.serve env req d) = Respond (Pipeline.okResponse env id)
      /\ video_analyses (db (fst (Pipeline.serve env req d)))
         = <[id := a]> (video_analyses d)
      /\ statusOf (db (fst (Pipeline.serve env req d))) id = Some completed)
  \/ (video_analyses (db (fst (Pipeline.serve env req d))) = video_analyses d
      /\ exists r, snd (Pipeline.serve env req d) = Respond r
                   /\ (resp_status r = 200 -> req_method req = OPTIONS)).
Proof.
  run_cases.
  all: first
    [ right; split; [reflexivity|]; eexists; split; [reflexivity|];
      first [ done | by intros ?
            | intros H200;
              match goal with
              | H : readVideoId _ = inl _ |- _ =>
                  apply readVideoId_400 in H; rewrite H in H200; done
              end ]
    | left; do 4 eexists; split; [reflexivity|]; split; [eassumption|];
      split; [reflexivity|]; split; [reflexivity|];
      apply statusOf_updateVideos; still_present ].
Qed.

(** X5. A status write without a message leaves the stored message alone,
    so the invocation that answers 200 ends with the job [completed] and
    with whatever error message the job had before: the message of an
    earlier failure is not cleared by a later success. *)
Theorem success_keeps_old_message env req d id r :
  readVideoId req = inr id ->
  req_method req = POST ->
  snd (Pipeline.serve env req d) = Respond r ->
  resp_status r = 200 ->
  statusOf (db (fst (Pipeline.serve env req d))) id = Some completed
  /\ messageOf (db (fst (Pipeline.serve env req d))) id = messageOf d id.
Proof.
  intros Hid Hm Hr H200. run_cases.
  all: split; [apply statusOf_updateVideos; still_present|].
  all: rewrite updateVideos_upsertAnalysis, updateVideos_absorb_status.
  all: apply messageOf_updateVideos_None.
Qed.

Lemma success_keeps_old_message_witness :
  readVideoId (Examples.directCall "abc") = inr "abc"
  /\ messageOf Stored.failedEarlier "abc" = Some "Failed to download video"
  /\ snd (Pipeline.serve Examples.allWell (Examples.directCall "abc")
            Stored.failedEarlier)
     = Respond (Pipeline.okResponse Examples.allWell "abc")
  /\ statusOf (db (fst (Pipeline.serve Examples.allWell
                          (Examples.directCall "abc") Stored.failedEarlier)))
       "abc" = Some completed
  /\ messageOf (db (fst (Pipeline.serve Examples.allWell
                           (Examples.directCall "abc") Stored.failedEarlier)))
       "abc" = Some "Failed to download video".
Proof.
  split; [reflexivity|]. split; [reflexivity|]. split; [reflexivity|].
  apply (success_keeps_old_message Examples.allWell (Examples.directCall "abc")
           Stored.failedEarlier "abc"
           (Pipeline.okResponse Examples.allWell "abc")
           eq_refl eq_refl eq_refl eq_refl).
Defined.

End RunFacts.

(** ** More on the inference response *)

Section ResponseFacts.
Import JS Parse Store Http Stored.

Lemma trim_allSpace s : allSpace s = true -> trim s = "".
Proof.
  unfold trim. induction s as [|c s IH]; [done|]. simpl.
  intros H. apply andb_prop in H as [Hc Hs]. rewrite Hc. by apply IH.
Qed.

(** X6. An inference answer that is missing or consists of white space
    only is a failure before any parsing: the job is stored [failed], the
    later version reports "Empty response from Gemini" as the detail of
    its 502 response and the earlier one answers 502 "Empty Gemini
    response"; JSON.parse is not consulted. *)
Theorem blank_response_fails env id fileUri mimeType text w :
  is_Some (videos (db w) !! id) ->
  generate env fileUri mimeType = GenerateOk text ->
  allSpace (match text with Some t => t | None => "" end) = true ->
  snd (Pipeline.analyse env (id, fileUri, mimeType) w)
  = Respond (errorDetailResponse 502 "Gemini analysis failed"
               (JStr "Empty response from Gemini"))
  /\ statusOf (db (fst (Pipeline.analyse env (id, fileUri, mimeType) w))) id
     = Some failed
  /\ snd (Trigger.analyse env (id, fileUri, mimeType) w)
     = Respond (errorResponse 502 "Empty Gemini response")
  /\ statusOf (db (fst (Trigger.analyse env (id, fileUri, mimeType) w))) id
     = Some failed.
Proof.
  intros Hjob Hgen Hblank. apply trim_allSpace in Hblank.
  unfold Pipeline.analyse, Pipeline.generateAnalysis, Trigger.analyse,
    Pipeline.updateVideoStatus, Trigger.markFailed, bind, writeStatus, respond.
  rewrite Hgen, Hblank. simpl.
  repeat split; by apply statusOf_updateVideos.
Qed.

Lemma blank_response_fails_witness :
  is_Some (videos (Examples.oneJob Examples.jobId processing) !! Examples.jobId)
  /\ generate blankAnswer "files/1" "video/mp4" = GenerateOk (Some (" " +:+ LF))
  /\ allSpace (" " +:+ LF) = true
  /\ snd (Pipeline.analyse blankAnswer (Examples.jobId, "files/1", "video/mp4")
            {| db := Examples.oneJob Examples.jobId processing; writes := [] |})
     = Respond (errorDetailResponse 502 "Gemini analysis failed"
                  (JStr "Empty response from Gemini")).
Proof.
  split; [by eexists|]. split; [reflexivity|]. split; [reflexivity|].
  apply (blank_response_fails blankAnswer Examples.jobId "files/1" "video/mp4"
           (Some (" " +:+ LF))
           {| db := Examples.oneJob Examples.jobId processing; writes := [] |}
           (ex_intro _ (Examples.job processing) eq_refl) eq_refl eq_refl).
Defined.

(** X7. A parsed value that is not null and has none of the fields (a
    number, a string, a boolean, an array, an object without them) is not
    an error: the analysis is the empty one, and when the save succeeds
    the later version stores it and marks the job [completed] with a 200
    response. *)
Theorem fieldless_answer_is_saved_empty env id fileUri mimeType parsed w :
  parsed <> JNull ->
  (forall k, getProp k parsed = None) ->
  readAnalysis parsed = inr emptyAnalysis
  /\ (is_Some (videos (db w) !! id) ->
      Pipeline.generateAnalysis env fileUri mimeType = readAnalysis parsed ->
      upsert env id emptyAnalysis = None ->
      snd (Pipeline.analyse env (id, fileUri, mimeType) w)
      = Respond (Pipeline.okResponse env id)
      /\ video_analyses (db (fst (Pipeline.analyse env (id, fileUri, mimeType) w)))
           !! id = Some emptyAnalysis
      /\ statusOf (db (fst (Pipeline.analyse env (id, fileUri, mimeType) w))) id
         = Some completed).
Proof.
  intros Hnull Hnone.
  assert (readAnalysis parsed = inr emptyAnalysis) as Hread.
  { unfold readAnalysis. destruct parsed; try done; by rewrite !Hnone. }
  split; [done|].
  intros Hjob Hgen Hup. rewrite Hread in Hgen.
  unfold Pipeline.analyse, Pipeline.updateVideoStatus, bind, writeStatus,
    writeAnalysis, respond.
  rewrite Hgen, Hup. simpl. split; [done|]. split.
  - apply lookup_insert_eq.
  - apply statusOf_updateVideos. by apply present_upsertAnalysis.
Qed.

Lemma fieldless_answer_is_saved_empty_witness :
  JNum "5" <> JNull
  /\ readAnalysis (JNum "5") = inr emptyAnalysis
  /\ snd (Pipeline.analyse numberAnswer (Examples.jobId, "files/1", "video/mp4")
            {| db := Examples.oneJob Examples.jobId processing; writes := [] |})
     = Respond (Pipeline.okResponse numberAnswer Examples.jobId).
Proof.
  split; [discriminate|].
  pose proof (fieldless_answer_is_saved_empty numberAnswer Examples.jobId
                "files/1" "video/mp4" (JNum "5")
                {| db := Examples.oneJob Examples.jobId processing;
                   writes := [] |}
                ltac:(discriminate) (fun k => eq_refl)) as [H1 H2].
  split; [exact H1|].
  apply H2; [by eexists | reflexivity | reflexivity].
Defined.

End ResponseFacts.

(** ** More on the extraction *)

Section ExtractionFacts.
Import JS Parse.

Lemma lazyUntilFence_none s : lacks "`" s = true -> lazyUntilFence s = None.
Proof.
  induction s as [|c s IH]; intros H; [done|].
  apply lacks_cons in H as [Hc H]. rewrite lazyUntilFence_eq.
  unfold fence at 1. rewrite startsWith_other by done. by rewrite IH.
Qed.

Lemma spacesThenGroup_cons c s :
  spacesThenGroup (String c s) =
  if isSpace c then
    match spacesThenGroup s with
    | Some g => Some g
    | None => lazyUntilFence (String c s)
    end
  else lazyUntilFence (String c s).
Proof. reflexivity. Qed.

Lemma spacesThenGroup_none s : lacks "`" s = true -> spacesThenGroup s = None.
Proof.
  induction s as [|c s IH]; intros H; [done|].
  pose proof (lazyUntilFence_none _ H) as HL.
  apply lacks_cons in H as [Hc H].
  rewrite spacesThenGroup_cons, (IH H), HL. by destruct (isSpace c).
Qed.

Lemma lacks_drop c n s : lacks c s = true -> lacks c (drop n s) = true.
Proof.
  revert s. induction n as [|n IH]; intros s H; [done|].
  destruct s as [|a s]; [done|]. apply lacks_cons in H as [_ H]. by apply IH.
Qed.

Lemma langThenGroup_none s : lacks "`" s = true -> langThenGroup s = None.
Proof.
  intros H. unfold langThenGroup.
  rewrite (spacesThenGroup_none s H).
  rewrite (spacesThenGroup_none (drop 4 s)) by by apply lacks_drop.
  by destruct (startsWith "json" s).
Qed.

Lemma startsWith_same a p s :
  startsWith (String a p) (String a s) = startsWith p s.
Proof.
  unfold startsWith. simpl. destruct (ascii_dec a a); [done|congruence].
Qed.

Lemma startsWith_fence_short rest :
  lacks "`" rest = true ->
  startsWith fence ("``" +:+ rest) = false
  /\ startsWith fence ("`" +:+ rest) = false.
Proof.
  intros H. destruct rest as [|c rest]; [split; reflexivity|].
  apply lacks_cons in H as [Hc _]. unfold fence.
  change ("``" +:+ String c rest) with (String "`" (String "`" (String c rest))).
  change ("`" +:+ String c rest) with (String "`" (String c rest)).
  rewrite !startsWith_same. by rewrite !startsWith_other.
Qed.

(** A fence that is opened and never closed is no match. *)
Lemma matchCodeFence_unclosed pre rest :
  lacks "`" pre = true ->
  lacks "`" rest = true ->
  matchCodeFence (pre +:+ fence +:+ rest) = None.
Proof.
  intros Hpre Hrest. induction pre as [|c pre IH].
  - rewrite app_nil.
    destruct (startsWith_fence_short rest Hrest) as [H2 H1].
    rewrite matchCodeFence_eq, startsWith_app.
    change 3%nat with (String.length fence). rewrite drop_app.
    rewrite langThenGroup_none by done.
    change (fence +:+ rest) with (String "`" ("``" +:+ rest)). cbv iota.
    rewrite matchCodeFence_eq, H2.
    change ("``" +:+ rest) with (String "`" ("`" +:+ rest)). cbv iota.
    rewrite matchCodeFence_eq, H1.
    change ("`" +:+ rest) with (String "`" rest). cbv iota.
    by apply matchCodeFence_none.
  - apply lacks_cons in Hpre as [Hc Hpre].
    rewrite app_cons, matchCodeFence_eq. unfold fence at 1.
    rewrite startsWith_other by done. by apply IH.
Qed.

Lemma extractJson_braces_unfenced head mid post :
  matchCodeFence (head +:+ "{" +:+ mid +:+ "}" +:+ post) = None ->
  lacks "{" head = true ->
  lacks "}" post = true ->
  extractJson (head +:+ "{" +:+ mid +:+ "}" +:+ post) = "{" +:+ mid +:+ "}".
Proof.
  intros Hnone Hhead Hpost. unfold extractJson. rewrite Hnone.
  set (s := head +:+ "{" +:+ mid +:+ "}" +:+ post).
  assert (indexOf "{" s = Z.of_nat (String.length head)) as ->.
  { by apply (indexOf_first "{" head (mid +:+ "}" +:+ post)). }
  assert (lastIndexOf "}" s
          = Z.of_nat (String.length head + S (String.length mid))) as ->.
  { subst s.
    replace (head +:+ "{" +:+ mid +:+ "}" +:+ post)
      with ((head +:+ "{" +:+ mid) +:+ String "}" post)
      by (by rewrite !app_assoc_s).
    rewrite lastIndexOf_last by done. by rewrite !length_app_s. }
  assert (slice (Z.of_nat (String.length head))
            (Z.of_nat (String.length head + S (String.length mid)) + 1) s
          = "{" +:+ mid +:+ "}") as ->.
  { pose proof (slice_middle head ("{" +:+ mid +:+ "}") post) as HS.
    rewrite !length_app_s in HS. simpl String.length in HS.
    etrans; [|exact HS]. subst s.
    f_equal; first [lia | by rewrite ?app_assoc_s]. }
  destruct (Z.leb_spec 0 (Z.of_nat (String.length head))); [|lia].
  destruct (Z.ltb_spec (Z.of_nat (String.length head))
              (Z.of_nat (String.length head + S (String.length mid)) + 1));
    [done|lia].
Qed.

(** X8. A response whose code fence is opened but never closed (a cut-off
    answer) is not lost: the fence does not match, and the text from the
    first opening brace to the last closing brace is extracted, as for a
    response without any fence. *)
Theorem unclosed_fence_falls_back_to_braces pre tag mid post :
  lacks "`" pre = true ->
  lacks "`" (tag +:+ "{" +:+ mid +:+ "}" +:+ post) = true ->
  lacks "{" (pre +:+ fence +:+ tag) = true ->
  lacks "}" post = true ->
  extractJson ((pre +:+ fence +:+ tag) +:+ "{" +:+ mid +:+ "}" +:+ post)
  = "{" +:+ mid +:+ "}".
Proof.
  intros Hpre Hrest Hhead Hpost.
  apply extractJson_braces_unfenced; [|done|done].
  rewrite !app_assoc_s. by apply matchCodeFence_unclosed.
Qed.

Lemma unclosed_fence_falls_back_to_braces_witness :
  lacks "`" "Here: " = true
  /\ lacks "`" (("json" +:+ LF) +:+ "{" +:+ "}" +:+ "") = true
  /\ extractJson (("Here: " +:+ fence +:+ ("json" +:+ LF)) +:+ "{" +:+ "}" +:+ "")
     = "{" +:+ "}".
Proof.
  split; [reflexivity|]. split; [reflexivity|].
  apply (unclosed_fence_falls_back_to_braces "Here: " ("json" +:+ LF) "" "");
    reflexivity.
Defined.

Lemma indexOf_absent c s :
  lacks c s = true -> indexOf (String c EmptyString) s = -1.
Proof.
  induction s as [|a s IH]; intros H; [done|].
  apply lacks_cons in H as [Ha H]. rewrite indexOf_cons, startsWith_char.
  apply Ascii.eqb_neq in Ha. rewrite Ha, IH by done. done.
Qed.

(** X9. A response without a backquote that has no opening brace, or no
    closing brace, is handed to JSON.parse as it is. *)
Theorem braceless_text_is_parsed_whole s :
  lacks "`" s = true ->
  lacks "{" s = true \/ lacks "}" s = true ->
  extractJson s = s.
Proof.
  intros Htick Hbr. unfold extractJson. rewrite matchCodeFence_none by done.
  destruct Hbr as [H|H].
  - by rewrite indexOf_absent.
  - rewrite lastIndexOf_absent by done. change (-1 + 1) with 0.
    destruct (Z.leb_spec 0 (indexOf "{" s)) as [Hle|Hlt]; [|done].
    destruct (Z.ltb_spec (indexOf "{" s) 0) as [Hlt|Hge]; [lia|done].
Qed.

Lemma braceless_text_is_parsed_whole_witness :
  lacks "`" "no json here" = true
  /\ extractJson "no json here" = "no json here".
Proof.
  split; [reflexivity|].
  apply (braceless_text_is_parsed_whole "no json here" eq_refl
           (or_introl eq_refl)).
Defined.

End ExtractionFacts.

(** ** The earlier version of the function *)

Section TriggerFacts.
Import JS Parse Store Http Stored.

Ltac trigger_cases :=
  unfold Trigger.serve, Trigger.handler, Trigger.upload, Trigger.analyse,
    Trigger.markFailed, bind, getVideo, writeStatus,
    writeAnalysis, respond, ret, throw in *;
  cbn -[updateVideos upsertAnalysis] in *;
  repeat (case_match; cbn -[updateVideos upsertAnalysis] in *;
          simplify_eq; try done);
  cbn -[updateVideos upsertAnalysis] in *; simplify_eq.

(** X10. In the earlier version an exception of one of the two upload
    requests escapes the handler: when the job is resolved and downloaded
    and the upload negotiation throws, or it gives an upload URL and the
    upload transfer throws, the invocation ends without a response and has
    written nothing, so the job stays in the status it had and is not
    marked [failed]. No other path of the handler ends without a
    response. *)
Theorem escaped_exception_writes_nothing env req d :
  (forall id path blob,
      Ends.resolve env req d = Some (id, path) ->
      download env path = Some blob ->
      (upload_start env (blob_size blob) (Ends.mimeTypeOf blob) path
       = StartThrows
       \/ exists u uploadUrl,
           upload_start env (blob_size blob) (Ends.mimeTypeOf blob) path
           = StartHeaders u
           /\ nonEmpty u = Some uploadUrl
           /\ upload_bytes env uploadUrl blob = UploadThrows) ->
      Trigger.serve env req d = ({| db := d; writes := [] |}, Uncaught))
  /\ (snd (Trigger.serve env req d) = Uncaught ->
      fst (Trigger.serve env req d) = {| db := d; writes := [] |}
      /\ exists id path blob,
          readVideoId req = inr id
          /\ download env path = Some blob
          /\ (upload_start env (blob_size blob)
                (if String.eqb (blob_type blob) "" then "video/mp4"
                 else blob_type blob) path = StartThrows
              \/ exists url, upload_bytes env url blob = UploadThrows)).
Proof.
  split.
  - intros id path blob Hres Hdl Hthrow.
    unfold Ends.resolve in Hres.
    destruct (req_method req) eqn:Hm; [done|].
    destruct (readVideoId req) as [|videoId] eqn:Hid; [done|].
    destruct (nonEmpty (gemini_key env)) as [key|] eqn:Hk; [|done].
    destruct (videos d !! videoId ≫= _) as [p|] eqn:Hjob; [|done].
    simplify_eq.
    unfold Trigger.serve, Trigger.handler, Trigger.upload, bind, getVideo,
      throw.
    rewrite Hm, Hid, Hk. cbn [db]. rewrite Hjob, Hdl.
    unfold Ends.mimeTypeOf in Hthrow.
    destruct Hthrow as [->|(u & uploadUrl & -> & -> & ->)]; reflexivity.
  - intros H. trigger_cases.
    all: split; [reflexivity|]; do 3 eexists; split; [reflexivity|];
      split; [eassumption|]; rewrite ?H0; eauto.
Qed.

Lemma escaped_exception_writes_nothing_witness :
  Ends.resolve startThrows (Examples.directCall "abc")
    (Examples.oneJob "abc" processing) = Some ("abc", "clip.mp4")
  /\ download startThrows "clip.mp4" = Some Examples.clip
  /\ upload_start startThrows (blob_size Examples.clip)
       (Ends.mimeTypeOf Examples.clip) "clip.mp4" = StartThrows
  /\ Trigger.serve startThrows (Examples.directCall "abc")
       (Examples.oneJob "abc" processing)
     = ({| db := Examples.oneJob "abc" processing; writes := [] |}, Uncaught).
Proof.
  split; [reflexivity|]. split; [reflexivity|]. split; [reflexivity|].
  apply (proj1 (escaped_exception_writes_nothing startThrows
                  (Examples.directCall "abc")
                  (Examples.oneJob "abc" processing))
           "abc" "clip.mp4" Examples.clip eq_refl eq_refl).
  left. reflexivity.
Defined.

(** X11. The earlier version never saves an analysis for a job whose id
    is not in the UUID format: the analysis table is as it was and the
    response is not the 200 one, whatever the services answer. *)
Theorem malformed_id_is_never_analysed env req d id :
  req_method req = POST ->
  readVideoId req = inr id ->
  Trigger.UUID_REGEX_test id = false ->
  video_analyses (db (fst (Trigger.serve env req d))) = video_analyses d
  /\ forall r, snd (Trigger.serve env req d) = Respond r -> resp_status r <> 200.
Proof.
  intros Hm Hid Huuid.
  unfold Trigger.serve, Trigger.handler, Trigger.upload,
    Trigger.markFailed, bind, getVideo, writeStatus, respond, ret, throw.
  rewrite Hm, Hid, Huuid.
  cbn -[updateVideos upsertAnalysis].
  repeat (case_match; cbn -[updateVideos upsertAnalysis] in *;
          simplify_eq; try done).
  all: split; [reflexivity|]; intros r Hr; by simplify_eq.
Qed.

Lemma malformed_id_is_never_analysed_witness :
  readVideoId (Examples.directCall "abc") = inr "abc"
  /\ Trigger.UUID_REGEX_test "abc" = false
  /\ video_analyses (db (fst (Trigger.serve Examples.allWell
                               (Examples.directCall "abc")
                               (Examples.oneJob "abc" processing))))
     = video_analyses (Examples.oneJob "abc" processing).
Proof.
  split; [reflexivity|]. split; [reflexivity|].
  apply (malformed_id_is_never_analysed Examples.allWell
           (Examples.directCall "abc") (Examples.oneJob "abc" processing) "abc"
           eq_refl eq_refl eq_refl).
Defined.

Lemma hexRun_length n rest s :
  Trigger.hexRun n rest s = true ->
  exists a b, s = a +:+ b /\ String.length a = n /\ rest b = true.
Proof.
  revert s. induction n as [|n IH]; intros s H.
  - exists "", s. by destruct s.
  - destruct s as [|c s]; [done|]. simpl in H.
    apply andb_prop in H as [_ H].
    destruct (IH s H) as (a & b & -> & Hlen & Hrest).
    exists (String c a), b. rewrite app_cons. simpl. by rewrite Hlen.
Qed.

Lemma dash_length rest s :
  Trigger.dash rest s = true ->
  exists b, s = "-" +:+ b /\ rest b = true.
Proof.
  destruct s as [|c s]; [done|]. simpl. intros H.
  apply andb_prop in H as [Hc H]. apply Ascii.eqb_eq in Hc as ->. by exists s.
Qed.

Lemma isHex_lowerChar c : Trigger.isHex (lowerChar c) = Trigger.isHex c.
Proof.
  destruct c as [[] [] [] [] [] [] [] []]; reflexivity.
Qed.

Lemma isDash_lowerChar c : Ascii.eqb (lowerChar c) "-" = Ascii.eqb c "-".
Proof.
  destruct c as [[] [] [] [] [] [] [] []]; reflexivity.
Qed.

Lemma hexRun_toLowerCase n rest rest' s :
  (forall b, rest (toLowerCase b) = rest' b) ->
  Trigger.hexRun n rest (toLowerCase s) = Trigger.hexRun n rest' s.
Proof.
  intros Hrest. revert s. induction n as [|n IH]; intros s.
  - simpl. by destruct s; rewrite <- Hrest.
  - destruct s as [|c s]; [done|]. simpl Trigger.hexRun at 2.
    change (toLowerCase (String c s))
      with (String (lowerChar c) (toLowerCase s)).
    simpl Trigger.hexRun. by rewrite isHex_lowerChar, IH.
Qed.

Lemma dash_toLowerCase rest rest' s :
  (forall b, rest (toLowerCase b) = rest' b) ->
  Trigger.dash rest (toLowerCase s) = Trigger.dash rest' s.
Proof.
  intros Hrest. destruct s as [|c s]; [done|].
  change (toLowerCase (String c s))
    with (String (lowerChar c) (toLowerCase s)).
  simpl. by rewrite isDash_lowerChar, Hrest.
Qed.

(** X12. The UUID test accepts only texts of exactly 36 characters, and
    it does not look at the case of the letters: a text passes exactly
    when its lower-case form passes. *)
Theorem uuid_test_length_and_case s :
  (Trigger.UUID_REGEX_test s = true -> String.length s = 36%nat)
  /\ Trigger.UUID_REGEX_test (toLowerCase s) = Trigger.UUID_REGEX_test s.
Proof.
  split.
  - unfold Trigger.UUID_REGEX_test. intros H.
    apply hexRun_length in H as (a1 & r1 & -> & L1 & H).
    apply dash_length in H as (r2 & -> & H).
    apply hexRun_length in H as (a2 & r3 & -> & L2 & H).
    apply dash_length in H as (r4 & -> & H).
    apply hexRun_length in H as (a3 & r5 & -> & L3 & H).
    apply dash_length in H as (r6 & -> & H).
    apply hexRun_length in H as (a4 & r7 & -> & L4 & H).
    apply dash_length in H as (r8 & -> & H).
    apply hexRun_length in H as (a5 & r9 & -> & L5 & H).
    apply String.eqb_eq in H as ->.
    rewrite !length_app_s, L1, L2, L3, L4, L5. reflexivity.
  - unfold Trigger.UUID_REGEX_test.
    repeat first [ apply hexRun_toLowerCase; intros ?
                 | apply dash_toLowerCase; intros ? ].
    by destruct b7.
Qed.

Lemma uuid_test_length_and_case_witness :
  Trigger.UUID_REGEX_test Examples.jobId = true
  /\ String.length Examples.jobId = 36%nat.
Proof.
  split; [reflexivity|].
  apply (proj1 (uuid_test_length_and_case Examples.jobId) eq_refl).
Defined.

Lemma substring_prefix n s :
  startsWith (String.substring 0 n s) s = true.
Proof.
  revert s. induction n as [|n IH]; intros s.
  - by destruct s.
  - destruct s as [|c s]; [done|]. simpl String.substring.
    rewrite startsWith_same. apply IH.
Qed.

Lemma substring_length n s :
  String.length (String.substring 0 n s) = Nat.min n (String.length s).
Proof.
  revert s. induction n as [|n IH]; intros s.
  - by destruct s.
  - destruct s as [|c s]; [done|]. simpl. by rewrite IH.
Qed.

(** X13. The [rawPreview] that the earlier version reports for an answer
    it cannot parse is the start of the answer and has at most 500
    characters: all of the answer when it is that short, its first 500
    characters otherwise; [rawLength] is the length of the whole
    answer. *)
Theorem raw_preview_is_a_bounded_prefix errMsg responseText :
  exists preview,
    getProp "rawPreview" (Trigger.structured errMsg responseText)
    = Some (JStr preview)
    /\ startsWith preview responseText = true
    /\ String.length preview = Nat.min 500 (String.length responseText)
    /\ getProp "rawLength" (Trigger.structured errMsg responseText)
       = Some (JNum (natToString (String.length responseText))).
Proof.
  eexists. split; [reflexivity|]. unfold slice.
  change (Z.to_nat 0) with 0%nat. change (Z.to_nat (500 - 0)) with 500%nat.
  split; [apply substring_prefix|]. split; [apply substring_length|done].
Qed.

End TriggerFacts.

(** ** More on the client *)

Section ClientFacts.
Import JS Sync View.

Variable JSON_parse : string -> string + json.

Local Abbreviation rowToPayload := (Sync.rowToPayload JSON_parse).
Local Abbreviation step := (Sync.step JSON_parse).

(** X14. When the status of the job is reported as "failed", by an update
    event on [videos] or by the status query of a poll tick that found no
    record, the client keeps that status, clears the poll interval, sets
    the failure message and clears [loading]; without a payload the view
    then renders the failure, and no interval tick does anything
    afterwards. A payload that is already shown stays shown. *)
Theorem failed_status_stops_the_interval s :
  (channelVideo s = true ->
   videoStatus (step s (VideoChange (Some "failed"))) = Some "failed"
   /\ pollRef (step s (VideoChange (Some "failed"))) = false
   /\ loading (step s (VideoChange (Some "failed"))) = false
   /\ error (step s (VideoChange (Some "failed"))) = Some FAILED_MESSAGE
   /\ internalPayload (step s (VideoChange (Some "failed"))) = internalPayload s
   /\ (internalPayload s = None ->
       render (step s (VideoChange (Some "failed"))) = Failed FAILED_MESSAGE)
   /\ forall now a,
        step (step s (VideoChange (Some "failed"))) (Interval now a)
        = step s (VideoChange (Some "failed")))
  /\ (forall now a,
         pollRef s = true ->
         now - pollStartTime s <= MAX_POLL_TIMEOUT_MS ->
         analysisOfJob a = QueryData None ->
         latestAnalysis a = QueryData None ->
         statusOfJob a = QueryData (Some "failed") ->
         videoStatus (step s (Interval now a)) = Some "failed"
         /\ pollRef (step s (Interval now a)) = false
         /\ loading (step s (Interval now a)) = false
         /\ error (step s (Interval now a)) = Some FAILED_MESSAGE
         /\ internalPayload (step s (Interval now a)) = internalPayload s
         /\ (internalPayload s = None ->
             render (step s (Interval now a)) = Failed FAILED_MESSAGE)
         /\ forall now' a',
              step (step s (Interval now a)) (Interval now' a')
              = step s (Interval now a)).
Proof.
  split.
  - intros Hc. simpl. rewrite Hc. repeat split; try done.
    intros Hp. unfold render. simpl. by rewrite Hp.
  - intros now a Hpoll Hnow Ha Hl Hst. simpl. rewrite Hpoll. unfold runPoll.
    destruct (Z.ltb_spec MAX_POLL_TIMEOUT_MS (now - pollStartTime s)); [lia|].
    unfold Sync.pollChain, Sync.fetchOnce, Sync.fetchLatestAnalysis,
      fetchVideoStatus.
    rewrite Ha, Hl, Hst. simpl. repeat split; try done.
    intros Hp. unfold render. simpl. by rewrite Hp.
Qed.

(** X15. A row gives a payload exactly when it is not null and has an
    [id] or a [video_id]. In a payload the summary is never the empty
    text, [timeline_data] and [diagram_data] are never empty arrays (they
    are absent instead), the timeline markers are the timeline data, and
    there are no console logs, critical points or metrics. *)
Theorem payload_of_a_row row :
  (rowToPayload row = None
   <-> row = None
       \/ exists r, row = Some r /\ id r = None /\ video_id r = None)
  /\ forall p,
      rowToPayload row = Some p ->
      p_summary p <> Some ""
      /\ p_timeline_data p <> Some []
      /\ p_diagram_data p <> Some []
      /\ p_timelineMarkers p
         = match p_timeline_data p with Some l => l | None => [] end
      /\ p_consoleLogs p = [] /\ p_criticalPoints p = []
      /\ p_summaryMetrics p = [].
Proof.
  split.
  - unfold Sync.rowToPayload. split.
    + intros H. destruct row as [r|]; [|by left]. right. exists r.
      destruct (id r), (video_id r); by simplify_eq.
    + intros [->|(r & -> & Hi & Hv)]; [done|]. by rewrite Hi, Hv.
  - intros p H. unfold Sync.rowToPayload in H.
    destruct row as [r|]; [|done].
    assert (p = {| p_summary :=
                     (let s := ensureString (summary r) in
                      if String.eqb s "" then None else Some s);
                   p_thought_trace := ensureArray JSON_parse (thought_trace r);
                   p_chapters := ensureArray JSON_parse (chapters r);
                   p_key_insights := ensureKeyInsights (key_insights r);
                   p_timeline_data :=
                     match ensureArray JSON_parse (timeline_data r) with
                     | [] => None
                     | _ => Some (ensureArray JSON_parse (timeline_data r))
                     end;
                   p_diagram_data :=
                     match ensureArray JSON_parse (diagram_data r) with
                     | [] => None
                     | _ => Some (ensureArray JSON_parse (diagram_data r))
                     end;
                   p_timelineMarkers := ensureArray JSON_parse (timeline_data r);
                   p_consoleLogs := [];
                   p_criticalPoints := [];
                   p_summaryMetrics := [] |}) as ->.
    { destruct (id r), (video_id r); by simplify_eq. }
    simpl. repeat split.
    + destruct (String.eqb (ensureString (summary r)) "") eqn:E; [done|].
      intros [= E']. rewrite E' in E. done.
    + by destruct (ensureArray JSON_parse (timeline_data r)).
    + by destruct (ensureArray JSON_parse (diagram_data r)).
    + by destruct (ensureArray JSON_parse (timeline_data r)).
Qed.

Lemma insight_shown item :
  insightText (Stored.storedKeyInsight (Parse.normalizeKeyInsight item))
  = JStr (Parse.text (Parse.normalizeKeyInsight item)).
Proof. reflexivity. Qed.

(** X16. From the inference response to the screen: whatever the items
    of the raw key-insights array are, the function stores one object per
    item, the client keeps each stored object as it is, and the list
    shows, item by item, the text the function has normalised (for an item
    that was a plain string, that string). *)
Theorem key_insights_reach_the_screen items :
  ensureKeyInsights
    (Some (JArr (map (fun item =>
                        Stored.storedKeyInsight (Parse.normalizeKeyInsight item))
                     items)))
  = map (fun item => Stored.storedKeyInsight (Parse.normalizeKeyInsight item))
      items
  /\ map insightText
       (ensureKeyInsights
          (Some (JArr (map (fun item =>
                              Stored.storedKeyInsight
                                (Parse.normalizeKeyInsight item))
                           items))))
     = map (fun item => JStr (Parse.text (Parse.normalizeKeyInsight item))) items
  /\ forall s, In (JStr s) items ->
               In (JStr s)
                 (map insightText
                    (ensureKeyInsights
                       (Some (JArr (map (fun item =>
                                           Stored.storedKeyInsight
                                             (Parse.normalizeKeyInsight item))
                                        items))))).
Proof.
  assert (ensureKeyInsights
            (Some (JArr (map (fun item =>
                                Stored.storedKeyInsight
                                  (Parse.normalizeKeyInsight item)) items)))
          = map (fun item =>
                   Stored.storedKeyInsight (Parse.normalizeKeyInsight item))
              items) as Hkeep.
  { unfold ensureKeyInsights. rewrite List.map_map.
    apply List.map_ext. intros item. reflexivity. }
  split; [exact Hkeep|]. rewrite Hkeep, List.map_map.
  split.
  - apply List.map_ext. intros item. apply insight_shown.
  - intros s Hin. apply List.in_map_iff. exists (JStr s). split; [|done].
    reflexivity.
Qed.

(** X17. Every element that [ensureKeyInsights] returns is a string or an
    object with a [text] key, whatever the column holds: the two shapes
    the list knows how to show. *)
Theorem key_insights_are_strings_or_texts col :
  Forall (fun e => (exists s, e = JStr s)
                   \/ exists fields t, e = JObj fields
                                       /\ assoc "text" fields = Some t)
         (ensureKeyInsights col).
Proof.
  unfold ensureKeyInsights. destruct col as [[]|]; try by constructor.
  apply List.Forall_forall. intros e Hin.
  apply List.in_map_iff in Hin as (item & <- & _).
  destruct item; eauto.
  destruct (assoc "text" fields) eqn:E; eauto.
Qed.

(** X18. When the parent passes a payload prop, null included, the
    subscription effect of the view does nothing: no channel, no timer, no
    request. Under [AnalysisViewWithConsole] the page therefore shows
    either the latest payload the wrapper received or the progress
    indicator, never the failure or the error view, and a payload once
    received is never taken back: the delete event of the row changes
    nothing. *)
Theorem view_under_the_wrapper videoId now es :
  (forall p, live (startEffect (Some p) videoId now)
             = (false, false, false, false)
             /\ firstPoll (startEffect (Some p) videoId now) = false
             /\ firstFetch (startEffect (Some p) videoId now) = false
             /\ firstStatus (startEffect (Some p) videoId now) = false)
  /\ shown videoId now (consoleRun JSON_parse es)
     = match payload (consoleRun JSON_parse es) with
       | Some p => Ready p None
       | None => Pending
       end
  /\ (forall e, is_Some (payload (consoleRun JSON_parse es)) ->
                is_Some (payload (consoleStep JSON_parse
                                    (consoleRun JSON_parse es) e)))
  /\ consoleStep JSON_parse (consoleRun JSON_parse es) (Changed noColumns)
     = consoleRun JSON_parse es.
Proof.
  split; [done|]. split; [|split]; [| |by simpl; destruct (channel _)].
  - unfold shown, renderView. simpl.
    by destruct (payload (consoleRun JSON_parse es)).
  - intros e [p Hp]. generalize dependent (consoleRun JSON_parse es).
    intros c Hp. unfold is_Some.
    destruct e as [new|answer|]; simpl; repeat case_match; simpl; eauto.
    destruct (Sync.rowToPayload JSON_parse data); simpl; eauto.
Qed.

(** X19. The progress step never leaves the list of steps: after any
    number of ticks of the progress interval, counted from the reset to
    step 0, it is the number of ticks or the last step, 2, whichever is
    smaller. *)
Theorem progress_step_is_bounded n :
  Nat.iter n advance 0%nat = Nat.min n 2
  /\ (Nat.iter n advance 0 < length PROGRESS_STEPS)%nat.
Proof.
  assert (Nat.iter n advance 0%nat = Nat.min n 2) as H.
  { induction n as [|n IH]; [done|]. simpl. rewrite IH.
    by destruct n as [|[|[|n]]]. }
  split; [done|]. rewrite H. simpl. lia.
Qed.

(** X23. Within one run of the effect the view, once it shows a payload,
    shows a payload after every further event (a status update, a failed
    status, a poll error, the timeout, the cleanup): the failure and the
    error view are never rendered over a record. *)
Theorem ready_is_never_left s e :
  is_Some (internalPayload s) ->
  is_Some (internalPayload (step s e))
  /\ exists p tag, render (step s e) = Ready p tag.
Proof.
  intros [p Hp].
  assert (is_Some (internalPayload (step s e))) as [q Hq].
  { unfold is_Some.
    destruct e; simpl;
      unfold onAnalysisChange, onVideoChange, noteStatus, markFailed, runPoll,
        Sync.pollChain, Sync.firstFetchChain, Sync.fetchOnce,
        Sync.fetchLatestAnalysis, fetchVideoStatus, noteStatus, markFailed,
        applyResult;
      repeat (case_match; simpl in *; simplify_eq); eauto. }
  split; [by eexists|]. unfold render. rewrite Hq. eauto.
Qed.

End ClientFacts.

(** *** On concrete rows *)

Section ClientFactsRuns.
Import JS Sync View Examples.

Lemma failed_status_stops_the_interval_witness :
  channelVideo (mount 0) = true
  /\ render (Sync.step parseExample (mount 0) (VideoChange (Some "failed")))
     = Failed FAILED_MESSAGE
  /\ pollRef (Sync.step parseExample (mount 0) (VideoChange (Some "failed")))
     = false.
Proof.
  split; [reflexivity|].
  pose proof (proj1 (failed_status_stops_the_interval parseExample (mount 0))
                eq_refl) as (_ & H2 & _ & _ & _ & H6 & _).
  split; [exact (H6 eq_refl) | exact H2].
Defined.

Lemma payload_of_a_row_witness :
  Sync.rowToPayload parseExample (Some (analysisRow jobId "first"))
  = Some (payloadWith "first")
  /\ p_timeline_data (payloadWith "first") <> Some []
  /\ p_timelineMarkers (payloadWith "first") = [].
Proof.
  split; [reflexivity|].
  pose proof (proj2 (payload_of_a_row parseExample
                       (Some (analysisRow jobId "first")))
                (payloadWith "first") eq_refl) as (_ & H2 & _ & H4 & _).
  split; [exact H2 | exact H4].
Defined.

Lemma key_insights_reach_the_screen_witness :
  In (JStr "plain string") [JNum "7"; JStr "plain string"]
  /\ In (JStr "plain string")
       (map insightText
          (ensureKeyInsights
             (Some (JArr (map (fun item =>
                                 Stored.storedKeyInsight
                                   (Parse.normalizeKeyInsight item))
                              [JNum "7"; JStr "plain string"]))))).
Proof.
  split; [right; left; reflexivity|].
  apply (proj2 (proj2 (key_insights_reach_the_screen
                         [JNum "7"; JStr "plain string"])) "plain string").
  right; left; reflexivity.
Defined.

Lemma view_under_the_wrapper_witness :
  is_Some (payload (consoleRun parseExample
                      [Fetched (QueryData None);
                       Changed (analysisRow jobId "first")]))
  /\ is_Some (payload (consoleStep parseExample
                         (consoleRun parseExample
                            [Fetched (QueryData None);
                             Changed (analysisRow jobId "first")])
                         (Changed noColumns)))
  /\ shown jobId 0 (consoleRun parseExample
                      [Fetched (QueryData None);
                       Changed (analysisRow jobId "first")])
     = Ready (payloadWith "first") None.
Proof.
  pose proof (view_under_the_wrapper parseExample jobId 0
                [Fetched (QueryData None); Changed (analysisRow jobId "first")])
    as (_ & H2 & H3 & _).
  split; [by eexists|]. split.
  - apply H3. by eexists.
  - exact H2.
Defined.

Lemma ready_is_never_left_witness :
  is_Some (internalPayload firstDelivered)
  /\ is_Some (internalPayload
                (Sync.step parseExample firstDelivered
                   (VideoChange (Some "failed"))))
  /\ exists p tag,
      render (Sync.step parseExample firstDelivered
                (VideoChange (Some "failed"))) = Ready p tag.
Proof.
  split; [by eexists|].
  apply (ready_is_never_left parseExample firstDelivered
           (VideoChange (Some "failed"))).
  by eexists.
Defined.

End ClientFactsRuns.

(** ** The chat function *)

Section ChatFacts.
Import JS Http Chat.

(** X20. The chat function refuses before it asks the inference service:
    a verb other than POST and OPTIONS gets 405; a POST gets 500 when the
    secret GEMINI_API_KEY is not configured, whatever its body; when the
    secret is configured, a POST whose body has no question, a question
    that is not a string, or a question of white space only gets 400
    "question is required", whatever the service would answer, and a body
    that is the JSON value null is not answered: the read of its question
    throws. *)
Theorem chat_refuses_before_asking env req :
  (verb req = OtherVerb ->
   handler env req = Respond (errorResponse 405 "Method not allowed"))
  /\ (forall b,
         verb req = POST ->
         nonEmpty (chat_key env) <> None ->
         body req = Some b ->
         b <> JNull ->
         (forall q, getProp "question" b = Some (JStr q) -> allSpace q = true) ->
         handler env req = Respond (errorResponse 400 "question is required"))
  /\ (verb req = POST ->
      nonEmpty (chat_key env) <> None ->
      body req = Some JNull ->
      handler env req = Uncaught)
  /\ (verb req = POST ->
      nonEmpty (chat_key env) = None ->
      handler env req = Respond (errorResponse 500 "GEMINI_API_KEY not set")).
Proof.
  unfold handler. split; [|split; [|split]].
  - by intros ->.
  - intros b -> Hkey -> Hb Hq.
    destruct (nonEmpty (chat_key env)); [|done].
    assert (questionOf b = "") as ->.
    { unfold questionOf. destruct (getProp "question" b) as [[]|] eqn:E; try done.
      by apply trim_allSpace, Hq. }
    by destruct b.
  - intros -> Hkey ->. by destruct (nonEmpty (chat_key env)).
  - by intros -> ->.
Qed.

Lemma chat_refuses_before_asking_witness :
  handler {| chat_key := Some "key";
             chat_generate := fun _ _ => ChatOk (Some "never asked") |}
          {| verb := POST;
             body := Some (JObj [("question", JStr "   ")]) |}
  = Respond (errorResponse 400 "question is required").
Proof.
  apply (proj1 (proj2 (chat_refuses_before_asking
                         {| chat_key := Some "key";
                            chat_generate :=
                              fun _ _ => ChatOk (Some "never asked") |}
                         {| verb := POST;
                            body := Some (JObj [("question", JStr "   ")]) |}))
           (JObj [("question", JStr "   ")]) eq_refl).
  - discriminate.
  - reflexivity.
  - discriminate.
  - intros q [= <-]. reflexivity.
Defined.

(** X21. When the inference service refuses a chat request, the response
    is 502 and its detail is the start of the text of the service, at most
    500 characters of it. *)
Theorem chat_error_detail_is_bounded env req b errText :
  verb req = POST ->
  nonEmpty (chat_key env) <> None ->
  body req = Some b ->
  b <> JNull ->
  questionOf b <> "" ->
  chat_generate env (systemInstruction (summaryOf b) (thoughtTraceOf b))
    (questionOf b) = ChatNotOk errText ->
  exists detail,
    handler env req
    = Respond (errorDetailResponse 502 "Gemini request failed" (JStr detail))
    /\ startsWith detail errText = true
    /\ String.length detail = Nat.min 500 (String.length errText).
Proof.
  intros Hv Hkey Hb Hnull Hq Hgen. unfold handler. rewrite Hv, Hb.
  destruct (nonEmpty (chat_key env)); [|done].
  apply String.eqb_neq in Hq. rewrite Hq, Hgen.
  exists (slice 0 500 errText). split; [by destruct b|].
  unfold slice. change (Z.to_nat 0) with 0%nat.
  change (Z.to_nat (500 - 0)) with 500%nat.
  split; [apply substring_prefix | apply substring_length].
Qed.

Lemma chat_error_detail_is_bounded_witness :
  exists detail,
    handler {| chat_key := Some "key";
               chat_generate := fun _ _ => ChatNotOk "quota exceeded" |}
            {| verb := POST; body := Some (JObj [("question", JStr "why?")]) |}
    = Respond (errorDetailResponse 502 "Gemini request failed" (JStr detail))
    /\ startsWith detail "quota exceeded" = true
    /\ String.length detail = Nat.min 500 (String.length "quota exceeded").
Proof.
  apply (chat_error_detail_is_bounded
           {| chat_key := Some "key";
              chat_generate := fun _ _ => ChatNotOk "quota exceeded" |}
           {| verb := POST; body := Some (JObj [("question", JStr "why?")]) |}
           (JObj [("question", JStr "why?")]) "quota exceeded");
    first [reflexivity | discriminate].
Defined.

End ChatFacts.

(** ** The name of an uploaded file *)

Section UploadFacts.
Import JS Upload.

Lemma allChars_app ok s t :
  allChars ok (s +:+ t) = allChars ok s && allChars ok t.
Proof.
  induction s as [|c s IH]; [done|]. rewrite app_cons. simpl.
  by rewrite IH, andb_assoc.
Qed.

Lemma allChars_substring ok a n s :
  allChars ok s = true -> allChars ok (String.substring a n s) = true.
Proof.
  revert a n. induction s as [|c s IH]; intros a n H.
  - by destruct a, n.
  - simpl in H. apply andb_prop in H as [Hc H].
    destruct a as [|a]; destruct n as [|n]; simpl; try done.
    + by rewrite Hc, IH.
    + by apply IH.
    + by apply IH.
Qed.

Lemma underscoreSpaces_safe b s :
  allChars (fun c => negb (isSpace c)) (underscoreSpaces b s) = true.
Proof.
  revert b. induction s as [|c s IH]; intros b; [done|]. simpl.
  destruct (isSpace c) eqn:Hc.
  - destruct b; [apply IH|]. simpl. apply IH.
  - simpl. by rewrite Hc, IH.
Qed.

Lemma dropSpecial_safe s :
  allChars (fun c => negb (isSpace c)) s = true ->
  allChars safeChar (dropSpecial s) = true.
Proof.
  induction s as [|c s IH]; [done|]. simpl. intros H.
  apply andb_prop in H as [Hc H].
  destruct (isSpecial c) eqn:Hs; [by apply IH|].
  simpl. unfold safeChar at 1. by rewrite Hc, Hs, IH.
Qed.

Lemma underscoreSpaces_length b s :
  (String.length (underscoreSpaces b s) <= String.length s)%nat.
Proof.
  revert b. induction s as [|c s IH]; intros b; [done|]. simpl.
  pose proof (IH true). pose proof (IH false).
  destruct (isSpace c); [destruct b|]; simpl; lia.
Qed.

Lemma dropSpecial_length s :
  (String.length (dropSpecial s) <= String.length s)%nat.
Proof.
  induction s as [|c s IH]; [done|]. simpl.
  destruct (isSpecial c); simpl; lia.
Qed.

Lemma substring_length_le a n s :
  (String.length (String.substring a n s)
   <= Nat.min n (String.length s - a))%nat.
Proof.
  revert a n. induction s as [|c s IH]; intros a n.
  - destruct a, n; simpl; lia.
  - destruct a as [|a]; destruct n as [|n];
      cbn [String.substring String.length Nat.sub]; try lia.
    + specialize (IH 0%nat n). lia.
    + specialize (IH a 0%nat). lia.
    + specialize (IH a (S n)). lia.
Qed.

(** X22. The sanitised name of an uploaded file has no white space and
    none of the characters that break a storage URL; it is never longer
    than the name it comes from, and at most 80 characters long when the
    name has no extension (no dot after its first character). *)
Theorem sanitized_name_is_safe name :
  allChars safeChar (sanitizeFileName name) = true
  /\ (String.length (sanitizeFileName name) <= String.length name)%nat
  /\ (lastIndexOf "." (dropSpecial (underscoreSpaces false name)) <= 0 ->
      (String.length (sanitizeFileName name) <= 80)%nat).
Proof.
  unfold sanitizeFileName.
  set (base := dropSpecial (underscoreSpaces false name)).
  assert (allChars safeChar base = true) as Hsafe
    by apply dropSpecial_safe, underscoreSpaces_safe.
  assert (String.length base <= String.length name)%nat as Hlen.
  { pose proof (dropSpecial_length (underscoreSpaces false name)).
    pose proof (underscoreSpaces_length false name). subst base. lia. }
  set (d := lastIndexOf "." base). unfold slice.
  split; [|split].
  - rewrite allChars_app. apply andb_true_intro. split.
    + apply allChars_substring.
      destruct (0 <? d); [by apply allChars_substring|done].
    + destruct (0 <? d); [by apply allChars_substring|done].
  - rewrite length_app_s.
    destruct (Z.ltb_spec 0 d) as [Hd|Hd].
    + pose proof (substring_length_le (Z.to_nat 0) (Z.to_nat (80 - 0))
                    (String.substring (Z.to_nat 0) (Z.to_nat (d - 0)) base)).
      pose proof (substring_length_le (Z.to_nat 0) (Z.to_nat (d - 0)) base).
      pose proof (substring_length_le (Z.to_nat d)
                    (Z.to_nat (Z.of_nat (String.length base) - d)) base).
      lia.
    + pose proof (substring_length_le (Z.to_nat 0) (Z.to_nat (80 - 0)) base).
      simpl String.length. lia.
  - intros Hd. destruct (Z.ltb_spec 0 d) as [Hd'|Hd']; [lia|].
    rewrite length_app_s. simpl String.length.
    pose proof (substring_length_le (Z.to_nat 0) (Z.to_nat (80 - 0)) base).
    lia.
Qed.

Lemma sanitized_name_is_safe_witness :
  lastIndexOf "." (dropSpecial (underscoreSpaces false "my  clip #1")) <= 0
  /\ sanitizeFileName "my  clip #1" = "my_clip_1"
  /\ (String.length (sanitizeFileName "my  clip #1") <= 80)%nat.
Proof.
  split; [by vm_compute|]. split; [reflexivity|].
  apply (proj2 (proj2 (sanitized_name_is_safe "my  clip #1"))).
  by vm_compute.
Defined.

End UploadFacts.

(** ** The answers of the later version *)

Section AnswerFacts.
Import JS Parse Store Http.

(** X24. The later version lets no exception of the services escape:
    every invocation ends with a response, and its status is 200, 400,
    404, 500 or 502. It is 400 or 404 only when nothing was written. *)
Theorem later_version_always_answers env req d :
  exists r,
    snd (Pipeline.serve env req d) = Respond r
    /\ In (resp_status r) [200; 400; 404; 500; 502]
    /\ (resp_status r = 400 \/ resp_status r = 404 ->
        fst (Pipeline.serve env req d) = {| db := d; writes := [] |}).
Proof.
  unfold Pipeline.serve, Pipeline.handler, Pipeline.upload, Pipeline.analyse,
    Pipeline.updateVideoStatus, bind, getVideo, writeStatus, writeAnalysis,
    respond, ret.
  cbn -[updateVideos upsertAnalysis].
  destruct (readVideoId req) as [bad|id] eqn:Hid.
  - destruct (req_method req); eexists; (split; [reflexivity|]); simpl.
    + split; [tauto|]. intros [?|?]; done.
    + rewrite (readVideoId_400 _ _ Hid). split; [tauto|done].
  - repeat (case_match; cbn -[updateVideos upsertAnalysis] in *;
            simplify_eq; try done).
    all: eexists; (split; [reflexivity|]); simpl;
      (split; [tauto|]); intros [?|?]; done.
Qed.

End AnswerFacts.
